(** * FlowForge: the workflow editor, its chat surface and the execution order

    A shallow embedding of the React front end of FlowForge
    (node factory, workflow builder, node components, chat interface)
    and of the execution-order compiler described by the specification,
    followed by the properties established about them. *)

From Stdlib Require Import ZArith Ascii String List Lia Bool.
From stdpp Require Import base option list relations gmap strings.

Local Open Scope string_scope.
Local Open Scope Z_scope.
Set Warnings "-register-all".

(** ** JavaScript values

    Strings are sequences of code units below 256.  Numbers are the
    integer-valued doubles the modelled code produces (counts,
    [parseInt] results, pixel coordinates) together with the two
    infinities and [NaN]; [JNum z] stands for the double of value [z],
    and the two zeros are not told apart (no modelled operation
    does). *)
Module JS.

(** Function values: the closures stored under [onUpdate] (the
    factory's no-op and the builder's "merge into the node with this
    id") and the built-in functions every object inherits from
    [Object.prototype], named by the property that holds them. *)
Inductive callback : Type :=
| CbNoop
| CbUpdateNode (target : string)
| CbNative (member : string).

Inductive jsval : Type :=
| JUndefined
| JNull
| JBool (b : bool)
| JNum (z : Z)
| JNaN
| JStr (s : string)
| JFun (f : callback)
| JArr (items : list jsval)
| JObj (props : list (string * jsval))
| JInfinity (negative : bool).

(** A plain object used as a record of named properties. *)
Abbreviation obj := (gmap string jsval).

(** [ToBoolean]. *)
Definition truthy (v : jsval) : bool :=
  match v with
  | JUndefined | JNull | JNaN => false
  | JBool b => b
  | JNum z => negb (z =? 0)
  | JStr s => negb (String.eqb s "")
  | JFun _ | JArr _ | JObj _ | JInfinity _ => true
  end.

(** [a || b]. *)
Definition js_or (a b : jsval) : jsval := if truthy a then a else b.

(** [v === 'literal']. *)
Definition strict_eq_str (v : jsval) (lit : string) : bool :=
  match v with
  | JStr s => String.eqb s lit
  | _ => false
  end.

(** [o.key] on a possibly undefined object ([o?.key]). *)
Definition get (o : option obj) (key : string) : jsval :=
  match o with
  | Some m => default JUndefined (m !! key)
  | None => JUndefined
  end.

(** [{...a, ...b}]: the properties of [b] win. *)
Definition spread (a b : obj) : obj := b ∪ a.

(** [{...o}] where [o] may be undefined. *)
Definition spread_opt (o : option obj) : obj := default ∅ o.

(** WhiteSpace and LineTerminator code units below 256. *)
Definition is_white_space (c : ascii) : bool :=
  let n := nat_of_ascii c in
  (Nat.eqb n 9 || Nat.eqb n 10 || Nat.eqb n 11 || Nat.eqb n 12
   || Nat.eqb n 13 || Nat.eqb n 32 || Nat.eqb n 160)%bool.

Fixpoint trimStart (s : string) : string :=
  match s with
  | String c rest => if is_white_space c then trimStart rest else s
  | EmptyString => EmptyString
  end.

Definition trimEnd (s : string) : string :=
  String.rev (trimStart (String.rev s)).

(** [String.prototype.trim]. *)
Definition trim (s : string) : string := trimEnd (trimStart s).

(** Value of a digit character in bases up to 36. *)
Definition digit_value (c : ascii) : option Z :=
  let n := Z.of_nat (nat_of_ascii c) in
  if (48 <=? n) && (n <=? 57) then Some (n - 48)
  else if (97 <=? n) && (n <=? 122) then Some (n - 87)
  else if (65 <=? n) && (n <=? 90) then Some (n - 55)
  else None.

(** The longest prefix of radix-[R] digits, read as a number;
    [None] when that prefix is empty. *)
Fixpoint parse_digits (R : Z) (s : string) (acc : option Z) : option Z :=
  match s with
  | String c rest =>
      match digit_value c with
      | Some d =>
          if d <? R then parse_digits R rest (Some (R * default 0 acc + d))
          else acc
      | None => acc
      end
  | EmptyString => acc
  end.

(** The double nearest to a natural number, ties to the even
    significand; [None] when that is beyond the largest double.
    Doubles carry 53 significant bits and stay below [2^1024]. *)
Definition round_to_double (m : Z) : option Z :=
  if m <? 2 ^ 53 then Some m
  else
    let shift := Z.log2 m - 52 in
    let q := Z.shiftr m shift in
    let r := Z.land m (Z.ones shift) in
    let half := Z.shiftl 1 (shift - 1) in
    let q' :=
      if r <? half then q
      else if half <? r then q + 1
      else if Z.even q then q else q + 1 in
    let v := Z.shiftl q' shift in
    if v <? 2 ^ 1024 then Some v else None.

(** The Number value of [sign * m], for a sign of 1 or -1. *)
Definition number_of (sign m : Z) : jsval :=
  match round_to_double m with
  | Some v => JNum (sign * v)
  | None => JInfinity (sign <? 0)
  end.

(** [parseInt(s)] with no radix argument.  The digits are read
    exactly and the result is rounded once; the standard lets an
    implementation replace decimal digits after the 20th by zeros
    before rounding, which this model does not do. *)
Definition parseInt (s : string) : jsval :=
  let s1 := trimStart s in
  let '(sign, s2) :=
    match s1 with
    | String c rest =>
        if Ascii.eqb c "-" then (-1, rest)
        else if Ascii.eqb c "+" then (1, rest)
        else (1, s1)
    | EmptyString => (1, s1)
    end in
  let '(radix, s3) :=
    match s2 with
    | String c0 (String c1 rest) =>
        if Ascii.eqb c0 "0" && (Ascii.eqb c1 "x" || Ascii.eqb c1 "X")
        then (16, rest) else (10, s2)
    | _ => (10, s2)
    end in
  match parse_digits radix s3 None with
  | Some m => number_of sign m
  | None => JNaN
  end.

(** [JSON.parse(JSON.stringify(v))]: [None] where [stringify] yields
    nothing (undefined, functions).  Inside arrays such entries become
    [null], inside objects the property is left out; [NaN] and the
    infinities become [null]. *)
Fixpoint json (v : jsval) : option jsval :=
  match v with
  | JUndefined | JFun _ => None
  | JNaN | JInfinity _ => Some JNull
  | JNull | JBool _ | JNum _ | JStr _ => Some v
  | JArr items => Some (JArr (List.map (fun x => default JNull (json x)) items))
  | JObj props =>
      Some (JObj ((fix go (l : list (string * jsval)) : list (string * jsval) :=
                     match l with
                     | [] => []
                     | (k, x) :: l' =>
                         match json x with
                         | Some x' => (k, x') :: go l'
                         | None => go l'
                         end
                     end) props))
  end.

(** The same on a top-level object literal. *)
Definition json_obj (o : obj) : obj := omap json o.

(** A property read back from parsed JSON. *)
Definition json_field (v : jsval) : jsval := default JUndefined (json v).

End JS.
Export JS.

(** ** utils/nodeFactory *)
Module NodeFactory.

Record position : Type := { pos_x : Z; pos_y : Z }.

(** A React Flow node as the builder handles it. *)
Record node : Type := {
  node_id : string;
  node_type : jsval;
  node_position : position;
  node_data : option obj;
}.

Definition nodeColors : gmap string string :=
  {[ "userQuery" := "#2196F3"; "knowledgeBase" := "#FF9800";
     "llmEngine" := "#9C27B0"; "output" := "#4CAF50" ]}.

Definition nodeLabels : gmap string string :=
  {[ "userQuery" := "User Query"; "knowledgeBase" := "Knowledge Base";
     "llmEngine" := "LLM Engine"; "output" := "Output" ]}.

Definition nodeTypeMap : gmap string string :=
  {[ "userQuery" := "userQuery"; "knowledgeBase" := "knowledgeBase";
     "llmEngine" := "llmEngine"; "output" := "output" ]}.

(** The properties of [Object.prototype], which every object literal
    inherits: its functions, and the accessor [__proto__], which
    yields the prototype itself (an object without enumerable
    properties). *)
Definition Object_prototype_functions : list string :=
  ["constructor"; "hasOwnProperty"; "isPrototypeOf"; "propertyIsEnumerable";
   "toLocaleString"; "toString"; "valueOf";
   "__defineGetter__"; "__defineSetter__"; "__lookupGetter__"; "__lookupSetter__"].

Definition Object_prototype (key : string) : option jsval :=
  if String.eqb key "__proto__" then Some (JObj [])
  else if existsb (String.eqb key) Object_prototype_functions
       then Some (JFun (CbNative key))
       else None.

(** [table[key]] on an object literal holding strings: an own property
    first, then what the prototype provides. *)
Definition table_get (t : gmap string string) (key : string) : jsval :=
  match t !! key with
  | Some s => JStr s
  | None => default JUndefined (Object_prototype key)
  end.

(** [createNode(type, position, onUpdateCallback = null)].  The result
    of [generateId()] (clock and random source) is the argument [id]. *)
Definition createNode (id : string) (type : string) (pos : position)
    (onUpdateCallback : option callback) : node :=
  let baseData : obj :=
    {[ "label" := js_or (table_get nodeLabels type) (JStr type);
       "type" := JStr type;
       "onUpdate" := JFun (default CbNoop onUpdateCallback) ]} in
  let data : obj :=
    if String.eqb type "knowledgeBase" then
      spread baseData
        {[ "knowledgeBaseId" := JStr "";
           "embeddingModel" := JStr "gemini";
           "topK" := JNum 5 ]}
    else if String.eqb type "llmEngine" then
      spread baseData
        {[ "llmProvider" := JStr "gemini";
           "model" := JStr "gpt-3.5-turbo";
           "customPrompt" := JStr "";
           "useWebSearch" := JBool false;
           "webSearchProvider" := JStr "serpapi" ]}
    else baseData in
  {| node_id := id;
     node_type := js_or (table_get nodeTypeMap type) (JStr type);
     node_position := pos;
     node_data := Some data |}.

End NodeFactory.
Export NodeFactory.

(** ** components/WorkflowBuilder and the node components *)
Module WorkflowBuilder.

(** React Flow's [MarkerType.ArrowClosed]. *)
Definition MarkerType_ArrowClosed : string := "arrowclosed".

(** An edge on the canvas. *)
Record edge : Type := {
  edge_id : string;
  edge_source : string;
  edge_target : string;
  edge_sourceHandle : jsval;
  edge_targetHandle : jsval;
  edge_type : jsval;
  edge_animated : jsval;
  edge_markerEnd : jsval;
}.

(** An edge as written into the save request. *)
Record saved_edge : Type := {
  se_id : string;
  se_source : string;
  se_target : string;
}.

(** The body of the save request. *)
Record workflowData : Type := {
  wd_name : string;
  wd_description : string;
  wd_nodes : list node;
  wd_edges : list saved_edge;
}.

(** A workflow as the server returns it ([editingWorkflow]). *)
Record workflow : Type := {
  wf_id : string;
  wf_name : option string;
  wf_description : option string;
  wf_nodes : option (list node);
  wf_edges : option (list saved_edge);
}.

(** The component state held in hooks. *)
Record builder : Type := {
  nodes : list node;
  edges : list edge;
  selectedNode : option node;
  workflowName : string;
  workflowDescription : string;
}.

Inductive effect : Type :=
| ToastError (msg : string)
| ToastSuccess (msg : string)
| Fetch (url method : string) (body : workflowData)
| OnWorkflowReady (wf : workflow).

(** What the awaited [fetch] does. *)
Inductive save_reply : Type :=
| SaveOk (wf : workflow)
| SaveRefused (detail : option string)
| SaveThrows (message : string).

(** [s || fallback] on a possibly missing string. *)
Definition str_or (s : option string) (fallback : string) : string :=
  match s with
  | Some t => if String.eqb t "" then fallback else t
  | None => fallback
  end.

(** [handleNodeUpdate(nodeId, data)]. *)
Definition handleNodeUpdate (nodeId : string) (newData : obj) (st : builder) : builder :=
  {| nodes :=
       List.map (fun n =>
         if String.eqb (node_id n) nodeId
         then {| node_id := node_id n;
                 node_type := node_type n;
                 node_position := node_position n;
                 node_data := Some (spread (spread_opt (node_data n)) newData) |}
         else n) (nodes st);
     edges := edges st;
     selectedNode := selectedNode st;
     workflowName := workflowName st;
     workflowDescription := workflowDescription st |}.

(** Calling whatever is stored under [data.onUpdate]. *)
Definition invoke (cb : jsval) (newData : obj) (st : builder) : builder :=
  match cb with
  | JFun (CbUpdateNode target) => handleNodeUpdate target newData st
  | _ => st
  end.

(** [onDrop]: [type] is the dragged component type, [id] the generated
    id and [pos] the computed drop position. *)
Definition onDrop (id : string) (type : string) (pos : position) (st : builder) : builder :=
  if String.eqb type "" then st
  else
    let newNode := createNode id type pos None in
    let newNode :=
      {| node_id := node_id newNode;
         node_type := node_type newNode;
         node_position := node_position newNode;
         node_data :=
           Some (<["onUpdate" := JFun (CbUpdateNode (node_id newNode))]>
                   (spread_opt (node_data newNode))) |} in
    {| nodes := (nodes st ++ [newNode])%list;
       edges := edges st;
       selectedNode := selectedNode st;
       workflowName := workflowName st;
       workflowDescription := workflowDescription st |}.

(** [n.data?.type === kind || n.type === kind]. *)
Definition is_kind (kind : string) (n : node) : bool :=
  strict_eq_str (get (node_data n) "type") kind || strict_eq_str (node_type n) kind.

Definition hasUserQuery (ns : list node) : bool := existsb (is_kind "userQuery") ns.
Definition hasLLM (ns : list node) : bool := existsb (is_kind "llmEngine") ns.
Definition hasOutput (ns : list node) : bool := existsb (is_kind "output") ns.

(** The two guards at the top of [handleSaveWorkflow]: the toast shown
    when one fails, [None] when both pass. *)
Definition validate (st : builder) : option string :=
  if negb (truthy (JStr (trim (workflowName st)))) then
    Some "Please enter a workflow name"
  else if negb (hasUserQuery (nodes st)) || negb (hasLLM (nodes st))
          || negb (hasOutput (nodes st)) then
    Some "Workflow must contain User Query, LLM Engine, and Output components"
  else None.

(** [node.data?.type || node.type]. *)
Definition actual_type (n : node) : jsval :=
  js_or (get (node_data n) "type") (node_type n).

Definition serialize_node (n : node) : node :=
  {| node_id := node_id n;
     node_type := actual_type n;
     node_position := node_position n;
     node_data := node_data n |}.

Definition serialize_edge (e : edge) : saved_edge :=
  {| se_id := edge_id e; se_source := edge_source e; se_target := edge_target e |}.

(** The [workflowData] literal. *)
Definition serialize (st : builder) : workflowData :=
  {| wd_name := workflowName st;
     wd_description := workflowDescription st;
     wd_nodes := List.map serialize_node (nodes st);
     wd_edges := List.map serialize_edge (edges st) |}.

(** [JSON.stringify(workflowData)] as the receiver parses it. *)
Definition stringify_node (n : node) : node :=
  {| node_id := node_id n;
     node_type := json_field (node_type n);
     node_position := node_position n;
     node_data := json_obj <$> node_data n |}.

Definition stringify (d : workflowData) : workflowData :=
  {| wd_name := wd_name d;
     wd_description := wd_description d;
     wd_nodes := List.map stringify_node (wd_nodes d);
     wd_edges := wd_edges d |}.

(** [handleSaveWorkflow]: the effects it performs, given what the
    awaited request does. *)
Definition handleSaveWorkflow (editingWorkflow : option workflow)
    (st : builder) (reply : save_reply) : list effect :=
  match validate st with
  | Some msg => [ToastError msg]
  | None =>
      let url :=
        match editingWorkflow with
        | Some w => "http://localhost:8000/api/workflows/" ++ wf_id w
        | None => "http://localhost:8000/api/workflows/"
        end in
      let method := match editingWorkflow with Some _ => "PUT" | None => "POST" end in
      Fetch url method (stringify (serialize st)) ::
      match reply with
      | SaveOk w =>
          [ToastSuccess (match editingWorkflow with
                         | Some _ => "Workflow updated successfully!"
                         | None => "Workflow saved successfully!"
                         end);
           OnWorkflowReady w]
      | SaveRefused detail => [ToastError (str_or detail "Failed to save workflow")]
      | SaveThrows message => [ToastError ("Error saving workflow: " ++ message)]
      end
  end.

(** The effect hook on [editingWorkflow]. *)
Definition processNode (n : node) : node :=
  {| node_id := node_id n;
     node_type := node_type n;
     node_position := node_position n;
     node_data :=
       Some (<["onUpdate" := JFun (CbUpdateNode (node_id n))]> (spread_opt (node_data n))) |}.

Definition processEdge (e : saved_edge) : edge :=
  {| edge_id := se_id e;
     edge_source := se_source e;
     edge_target := se_target e;
     edge_sourceHandle := JUndefined;
     edge_targetHandle := JUndefined;
     edge_type := JStr "smoothstep";
     edge_animated := JBool true;
     edge_markerEnd := JObj [("type", JStr MarkerType_ArrowClosed)] |}.

Definition loadEditingWorkflow (editingWorkflow : option workflow) (st : builder) : builder :=
  match editingWorkflow with
  | Some w =>
      {| nodes := default [] (List.map processNode <$> wf_nodes w);
         edges := default [] (List.map processEdge <$> wf_edges w);
         selectedNode := selectedNode st;
         workflowName := str_or (wf_name w) "";
         workflowDescription := str_or (wf_description w) "" |}
  | None =>
      {| nodes := []; edges := []; selectedNode := selectedNode st;
         workflowName := ""; workflowDescription := "" |}
  end.

(** Modelled from the spec: the workflow store behind
    [/api/workflows], which is not part of the front end; the spec
    describes it as plain record storage, so a saved body is returned
    as it was received, under the id the store assigned. *)
Definition stored (id : string) (d : workflowData) : workflow :=
  {| wf_id := id;
     wf_name := Some (wd_name d);
     wf_description := Some (wd_description d);
     wf_nodes := Some (wd_nodes d);
     wf_edges := Some (wd_edges d) |}.

(** Saving the canvas and opening the stored workflow for editing. *)
Definition save_and_reopen (id : string) (st : builder) : builder :=
  loadEditingWorkflow (Some (stored id (stringify (serialize st)))) st.

(** The same when the stored workflow is opened in a builder whose
    hooks hold [prior]; a builder that has just been mounted holds the
    empty canvas. *)
Definition save_and_open_in (prior : builder) (id : string) (st : builder) : builder :=
  loadEditingWorkflow (Some (stored id (stringify (serialize st)))) prior.

(** [onNodeClick(event, node)] and [onPaneClick()]. *)
Definition onNodeClick (n : node) (st : builder) : builder :=
  {| nodes := nodes st; edges := edges st; selectedNode := Some n;
     workflowName := workflowName st; workflowDescription := workflowDescription st |}.

Definition onPaneClick (st : builder) : builder :=
  {| nodes := nodes st; edges := edges st; selectedNode := None;
     workflowName := workflowName st; workflowDescription := workflowDescription st |}.

(** Whether [deleted.find((d) => d.id === id)] finds a node. *)
Definition deleted_find (deleted : list node) (id : string) : bool :=
  existsb (fun d => String.eqb (node_id d) id) deleted.

(** [onNodesDelete(deleted)]. *)
Definition onNodesDelete (deleted : list node) (st : builder) : builder :=
  {| nodes := List.filter (fun n => negb (deleted_find deleted (node_id n))) (nodes st);
     edges := edges st;
     selectedNode :=
       match selectedNode st with
       | Some sel => if deleted_find deleted (node_id sel) then None else Some sel
       | None => None
       end;
     workflowName := workflowName st;
     workflowDescription := workflowDescription st |}.

(** *** CustomNodes/KnowledgeBaseNode *)

(** What the Top K field shows: [data.topK || 5]. *)
Definition KnowledgeBaseNode_topK_value (data : obj) : jsval :=
  js_or (get (Some data) "topK") (JNum 5).

(** The field's [onChange] with [e.target.value = value]. *)
Definition KnowledgeBaseNode_topK_onChange (data : obj) (value : string)
    (st : builder) : builder :=
  invoke (get (Some data) "onUpdate")
         {[ "topK" := js_or (parseInt value) (JNum 5) ]} st.

(** *** CustomNodes/LLMEngineNode *)

(** What the provider select shows: [data.llmProvider || 'gemini']. *)
Definition LLMEngineNode_llmProvider_value (data : obj) : jsval :=
  js_or (get (Some data) "llmProvider") (JStr "gemini").

(** *** components/ComponentConfigPanel *)

(** [handleChange(key, value)]: the new config handed to
    [onUpdate(node.id, newConfig)]. *)
Definition ComponentConfigPanel_handleChange (config : obj) (key : string)
    (value : jsval) : obj :=
  spread config {[ key := value ]}.

(** What the panel's provider select shows:
    [config.llmProvider || 'openai']. *)
Definition ComponentConfigPanel_llmProvider_value (config : obj) : jsval :=
  js_or (get (Some config) "llmProvider") (JStr "openai").

(** The Top K field's [onChange] in the panel. *)
Definition ComponentConfigPanel_topK_onChange (n : node) (config : obj)
    (value : string) (st : builder) : builder :=
  handleNodeUpdate (node_id n)
    (ComponentConfigPanel_handleChange config "topK" (parseInt value)) st.

End WorkflowBuilder.
Export WorkflowBuilder.

(** ** components/ChatInterface *)
Module ChatInterface.

Record message : Type := { role : string; content : string }.

(** An entry of the sessions list as the server returns it. *)
Record session : Type := { session_id : string; created_at : string }.

(** The component state held in hooks; [sessionId = None] is [null]. *)
Record chat : Type := {
  messages : list message;
  input : string;
  loading : bool;
  sessionId : option string;
  chatSessions : list session;
  sidebarOpen : bool;
}.

Inductive effect : Type :=
| PreventDefault
| StopPropagation
| PostQuery (query workflow_id : string) (session_id : option string)
| GetSessions (workflow_id : string)
| DeleteSession (session_id : string)
| ToastError (msg : string)
| ToastSuccess (msg : string)
| GetHistory (session_id : string).

(** What the awaited [axios.post] does: it resolves with
    [response.data], or rejects with [error.response?.data?.detail]. *)
Inductive query_reply : Type :=
| QueryOk (session_id : option string) (response : string)
| QueryFails (detail : option string).

(** What the awaited [axios.get] of a session's history does. *)
Inductive history_reply : Type :=
| HistoryOk (data : list message)
| HistoryFails.

(** What the awaited [axios.delete] does. *)
Inductive delete_reply : Type :=
| DeleteOk
| DeleteFails.

(** A handler is a state transformer that logs its effects. *)
Definition handler (A : Type) : Type := chat -> A * chat * list effect.

#[export] Instance handler_ret : MRet handler :=
  fun A (a : A) st => (a, st, []).

#[export] Instance handler_bind : MBind handler :=
  fun A B (k : A -> handler B) (m : handler A) st =>
    let '(a, st1, out1) := m st in
    let '(b, st2, out2) := k a st1 in
    (b, st2, (out1 ++ out2)%list).

Definition read : handler chat := fun st => (st, st, []).
Definition emit (e : effect) : handler unit := fun st => (tt, st, [e]).

Definition setMessages (f : list message -> list message) : handler unit :=
  fun st =>
    (tt, {| messages := f (messages st); input := input st; loading := loading st;
            sessionId := sessionId st; chatSessions := chatSessions st;
            sidebarOpen := sidebarOpen st |}, []).

Definition setInput (v : string) : handler unit :=
  fun st =>
    (tt, {| messages := messages st; input := v; loading := loading st;
            sessionId := sessionId st; chatSessions := chatSessions st;
            sidebarOpen := sidebarOpen st |}, []).

Definition setLoading (v : bool) : handler unit :=
  fun st =>
    (tt, {| messages := messages st; input := input st; loading := v;
            sessionId := sessionId st; chatSessions := chatSessions st;
            sidebarOpen := sidebarOpen st |}, []).

Definition setSessionId (v : option string) : handler unit :=
  fun st =>
    (tt, {| messages := messages st; input := input st; loading := loading st;
            sessionId := v; chatSessions := chatSessions st;
            sidebarOpen := sidebarOpen st |}, []).

Definition setChatSessions (v : list session) : handler unit :=
  fun st =>
    (tt, {| messages := messages st; input := input st; loading := loading st;
            sessionId := sessionId st; chatSessions := v;
            sidebarOpen := sidebarOpen st |}, []).

(** [prev.slice(0, -1)]. *)
Definition slice_0_minus1 {A} (l : list A) : list A := removelast l.

(** [loadChatSessions()]: the request it starts; its result arrives
    in a later event. *)
Definition loadChatSessions (workflow_id : string) : handler unit :=
  emit (GetSessions workflow_id).

(** [handleSend(e)] for the workflow [workflow_id] runs in two steps,
    with [await axios.post(...)] between them.  The first step ends by
    sending the request and tells whether it did; the second step runs
    when the request has settled, on the state as it is then: its
    updates are functions of the message list of that moment. *)
Definition handleSend_before (workflow_id : string) : handler bool :=
  emit PreventDefault ;;
  st ← read;
  if negb (truthy (JStr (trim (input st)))) || loading st then mret false
  else
    let userMessage := trim (input st) in
    setInput "" ;;
    setMessages (fun prev => (prev ++ [{| role := "user"; content := userMessage |}])%list) ;;
    setLoading true ;;
    emit (PostQuery userMessage workflow_id (sessionId st)) ;;
    mret true.

Definition handleSend_after (workflow_id : string) (reply : query_reply) : handler unit :=
  match reply with
  | QueryOk sid response =>
      setSessionId sid ;;
      setMessages (fun prev => (prev ++ [{| role := "assistant"; content := response |}])%list) ;;
      loadChatSessions workflow_id
  | QueryFails detail =>
      emit (ToastError (str_or detail "Error processing query")) ;;
      setMessages (fun prev => slice_0_minus1 prev)
  end ;;
  setLoading false.

(** A call of [handleSend] with the handlers [during] running while
    its request is pending. *)
Definition handleSend_with (during : handler unit) (workflow_id : string)
    (reply : query_reply) : handler unit :=
  sent ← handleSend_before workflow_id;
  if sent : bool then during ;; handleSend_after workflow_id reply else mret tt.

(** A call of [handleSend] with nothing else running while its
    request is pending. *)
Definition handleSend (workflow_id : string) (reply : query_reply) : handler unit :=
  sent ← handleSend_before workflow_id;
  if sent : bool then handleSend_after workflow_id reply else mret tt.

(** [handleDeleteSession(session, e)], given what the awaited request
    does. *)
Definition handleDeleteSession (s : session) (reply : delete_reply) : handler unit :=
  emit StopPropagation ;;
  st ← read;
  emit (DeleteSession (session_id s)) ;;
  match reply with
  | DeleteOk =>
      setChatSessions
        (List.filter (fun s' => negb (String.eqb (session_id s') (session_id s)))
                     (chatSessions st)) ;;
      match sessionId st with
      | Some cur =>
          if String.eqb cur (session_id s)
          then setSessionId None ;; setMessages (fun _ => [])
          else mret tt
      | None => mret tt
      end ;;
      emit (ToastSuccess "Chat session deleted")
  | DeleteFails => emit (ToastError "Error deleting chat session")
  end.

(** [handleSessionClick(session)] and [handleNewChat()]. *)
Definition handleSessionClick (s : session) : handler unit :=
  setSessionId (Some (session_id s)).

Definition handleNewChat : handler unit :=
  setSessionId None ;; setMessages (fun _ => []).

(** The send button's [disabled={loading || !input.trim()}]. *)
Definition send_disabled (st : chat) : bool :=
  loading st || negb (truthy (JStr (trim (input st)))).

(** [loadChatHistory()] in a render whose session id is [session_id],
    given what its request does, with nothing else running while that
    is pending. *)
Definition loadChatHistory (session_id : string) (reply : history_reply) : handler unit :=
  emit (GetHistory session_id) ;;
  match reply with
  | HistoryOk data =>
      setMessages (fun _ =>
        List.map (fun msg => {| role := role msg; content := content msg |}) data)
  | HistoryFails => mret tt
  end.

(** Whether two values of the [sessionId] hook are the same
    dependency. *)
Definition same_dependency (a b : option string) : bool :=
  match a, b with
  | Some x, Some y => String.eqb x y
  | None, None => true
  | _, _ => false
  end.

(** The effect hook on [sessionId], after a render: when the id is not
    the one of the render before ([previous]) and is truthy, the
    history of that session is loaded. *)
Definition sessionId_effect (previous : option string) (reply : history_reply)
    : handler unit :=
  st ← read;
  if same_dependency (sessionId st) previous then mret tt
  else
    match sessionId st with
    | Some sid => if truthy (JStr sid) then loadChatHistory sid reply else mret tt
    | None => mret tt
    end.

(** A handler together with the effect hook of the render it causes;
    [history] is what the history request does, should one be made. *)
Definition rendered (h : handler unit) (history : history_reply) : handler unit :=
  st ← read;
  h ;; sessionId_effect (sessionId st) history.

(** Typing [text] into the input ([onChange]) and submitting the form. *)
Definition turn (workflow_id text : string) (reply : query_reply) : handler unit :=
  setInput text ;; handleSend workflow_id reply.

(** Several such turns in a row, each settled before the next one
    starts, with what their requests do. *)
Fixpoint conversation (workflow_id : string)
    (turns : list (string * query_reply * history_reply)) : handler unit :=
  match turns with
  | [] => mret tt
  | (text, reply, history) :: rest =>
      rendered (turn workflow_id text reply) history ;; conversation workflow_id rest
  end.

(** The state a handler leaves and the effects it performed. *)
Definition state_after {A} (h : handler A) (st : chat) : chat := snd (fst (h st)).
Definition effects_of {A} (h : handler A) (st : chat) : list effect := snd (h st).

Definition is_request (e : effect) : bool :=
  match e with
  | PostQuery _ _ _ | GetSessions _ | DeleteSession _ | GetHistory _ => true
  | _ => false
  end.

End ChatInterface.

(** ** The execution-order compiler *)
Module GraphCompiler.

(** Modelled from the spec: the execution engine's GraphCompiler, which
    is not among the front-end sources.  The spec gives Kahn's algorithm
    over in-degree counts with ties among in-degree-zero nodes broken
    by ascending node id, a StructuralError when a cycle prevents
    progress, and a plan holding the node sequence and each node's
    predecessor ids.  A graph is the node ids and the edges as
    (source, target) pairs. *)
Record graph : Type := {
  g_nodes : list string;
  g_edges : list (string * string);
}.

(** Modelled from the spec: [StructuralError("cycle-detected")]. *)
Inductive StructuralError : Type :=
| cycle_detected.

(** Modelled from the spec: the node sequence plus, for each node, its
    predecessor ids. *)
Record ExecutionPlan : Type := {
  plan_order : list string;
  plan_predecessors : list (string * list string);
}.

Definition mem (x : string) (l : list string) : bool := existsb (String.eqb x) l.

(** Modelled from the spec: the in-degree count of [v] once the nodes in
    [emitted] have been output, that is the number of edges into [v]
    whose source is still to come. *)
Definition in_degree (edges : list (string * string)) (emitted : list string)
    (v : string) : nat :=
  length (List.filter (fun e => String.eqb (snd e) v && negb (mem (fst e) emitted)) edges).

(** Modelled from the spec: the nodes that have in-degree zero
    simultaneously. *)
Definition ready (edges : list (string * string)) (emitted remaining : list string)
    : list string :=
  List.filter (fun v => Nat.eqb (in_degree edges emitted v) 0) remaining.

(** Modelled from the spec: the tie-break, the least id of [x :: l] in
    ascending (lexicographic) order. *)
Fixpoint least (x : string) (l : list string) : string :=
  match l with
  | [] => x
  | y :: l' => if String.leb x y then least x l' else least y l'
  end.

Definition remove_id (v : string) (l : list string) : list string :=
  List.filter (fun u => negb (String.eqb u v)) l.

(** Modelled from the spec: Kahn's loop; one node is output per round,
    so [length remaining] rounds suffice. *)
Fixpoint kahn (edges : list (string * string)) (rounds : nat)
    (emitted remaining : list string) : StructuralError + list string :=
  match remaining with
  | [] => inr []
  | _ :: _ =>
      match rounds with
      | O => inl cycle_detected
      | S rounds' =>
          match ready edges emitted remaining with
          | [] => inl cycle_detected
          | r :: rs =>
              let v := least r rs in
              match kahn edges rounds' (v :: emitted) (remove_id v remaining) with
              | inr order => inr (v :: order)
              | inl err => inl err
              end
          end
      end
  end.

(** Modelled from the spec: the predecessor ids of a node. *)
Definition predecessors (edges : list (string * string)) (v : string) : list string :=
  List.map fst (List.filter (fun e => String.eqb (snd e) v) edges).

(** Modelled from the spec: [compile(workflow) -> ExecutionPlan]. *)
Definition compile (g : graph) : StructuralError + ExecutionPlan :=
  match kahn (g_edges g) (length (g_nodes g)) [] (g_nodes g) with
  | inr order =>
      inr {| plan_order := order;
             plan_predecessors :=
               List.map (fun v => (v, predecessors (g_edges g) v)) order |}
  | inl err => inl err
  end.

(** The edge relation of a graph, cycles, and the graphs validation
    lets through: unique ids, no dangling edge, no cycle. *)
Definition edge_rel (edges : list (string * string)) : relation string :=
  fun u v => (u, v) ∈ edges.

Definition has_cycle (edges : list (string * string)) : Prop :=
  exists v, tc (edge_rel edges) v v.

Definition is_dag (g : graph) : Prop :=
  NoDup (g_nodes g)
  /\ (forall u v, (u, v) ∈ g_edges g -> u ∈ g_nodes g /\ v ∈ g_nodes g)
  /\ ~ has_cycle (g_edges g).

(** [u] comes before [v] in [order]. *)
Definition precedes (order : list string) (u v : string) : Prop :=
  exists l1 l2 l3, order = (l1 ++ u :: l2 ++ v :: l3)%list.

(** The graph drawn on the builder's canvas. *)
Definition graph_of (st : builder) : graph :=
  {| g_nodes := List.map node_id (nodes st);
     g_edges := List.map (fun e => (edge_source e, edge_target e)) (edges st) |}.

End GraphCompiler.

(** ** App *)
Module App.

(** The state held in hooks; [currentView] is 'home', 'builder' or
    'chat'. *)
Record app : Type := {
  activeWorkflow : option workflow;
  showChat : bool;
  currentView : string;
  editingWorkflow : option workflow;
}.

Definition initial : app :=
  {| activeWorkflow := None; showChat := false; currentView := "home";
     editingWorkflow := None |}.

Definition handleCreateStack (st : app) : app :=
  {| activeWorkflow := activeWorkflow st; showChat := showChat st;
     currentView := "builder"; editingWorkflow := None |}.

Definition handleEditStack (w : workflow) (st : app) : app :=
  {| activeWorkflow := activeWorkflow st; showChat := showChat st;
     currentView := "builder"; editingWorkflow := Some w |}.

Definition handleWorkflowReady (w : workflow) (st : app) : app :=
  {| activeWorkflow := Some w; showChat := true;
     currentView := "chat"; editingWorkflow := editingWorkflow st |}.

Definition handleBackToHome (st : app) : app :=
  {| activeWorkflow := activeWorkflow st; showChat := showChat st;
     currentView := "home"; editingWorkflow := None |}.

Definition handleBackToBuilder (st : app) : app :=
  {| activeWorkflow := activeWorkflow st; showChat := false;
     currentView := "builder"; editingWorkflow := editingWorkflow st |}.

(** The callbacks the children may call, in any order and at any time
    (two of them are called after an awaited request). *)
Inductive event : Type :=
| CreateStack
| EditStack (w : workflow)
| WorkflowReady (w : workflow)
| BackToHome
| BackToBuilder.

Definition handle (e : event) (st : app) : app :=
  match e with
  | CreateStack => handleCreateStack st
  | EditStack w => handleEditStack w st
  | WorkflowReady w => handleWorkflowReady w st
  | BackToHome => handleBackToHome st
  | BackToBuilder => handleBackToBuilder st
  end.

Definition run (events : list event) (st : app) : app :=
  fold_left (fun s e => handle e s) events st.

(** What the component renders below the toaster. *)
Inductive screen : Type :=
| HomePageScreen
| WorkflowBuilderScreen (editingWorkflow : option workflow)
| ChatInterfaceScreen (workflow : option workflow).

Definition render (st : app) : list screen :=
  ((if String.eqb (currentView st) "home" then [HomePageScreen] else [])
   ++ (if String.eqb (currentView st) "builder"
       then [WorkflowBuilderScreen (editingWorkflow st)] else [])
   ++ (if String.eqb (currentView st) "chat"
       then [ChatInterfaceScreen (activeWorkflow st)] else []))%list.

End App.

(** ** components/HomePage *)
Module HomePage.

Record home : Type := {
  workflows : list workflow;
  loading : bool;
  editingLoading : bool;
}.

Inductive effect : Type :=
| GetWorkflows
| GetWorkflow (id : string)
| DeleteWorkflow (id : string)
| ConsoleError (msg : string)
| OnEditStack (w : workflow).

(** What the awaited requests do. *)
Inductive list_reply : Type :=
| ListOk (data : list workflow)
| ListFails.

Inductive detail_reply : Type :=
| DetailOk (data : workflow)
| DetailFails.

Inductive delete_reply : Type :=
| DeleteOk
| DeleteFails.

(** [fetchWorkflows()]. *)
Definition fetchWorkflows (reply : list_reply) (st : home) : home * list effect :=
  match reply with
  | ListOk data =>
      ({| workflows := data; loading := false; editingLoading := editingLoading st |},
       [GetWorkflows])
  | ListFails =>
      ({| workflows := workflows st; loading := false;
          editingLoading := editingLoading st |},
       [GetWorkflows; ConsoleError "Error fetching workflows:"])
  end.

(** [handleEditStack(workflow)]. *)
Definition handleEditStack (w : workflow) (reply : detail_reply) (st : home)
    : home * list effect :=
  let done :=
    {| workflows := workflows st; loading := loading st; editingLoading := false |} in
  match reply with
  | DetailOk data => (done, [GetWorkflow (wf_id w); OnEditStack data])
  | DetailFails =>
      (done, [GetWorkflow (wf_id w);
              ConsoleError "Error fetching workflow details:"; OnEditStack w])
  end.

(** [handleDeleteWorkflow(workflowId)]. *)
Definition handleDeleteWorkflow (workflowId : string) (reply : delete_reply) (st : home)
    : home * list effect :=
  match reply with
  | DeleteOk =>
      ({| workflows :=
            List.filter (fun wf => negb (String.eqb (wf_id wf) workflowId)) (workflows st);
          loading := loading st; editingLoading := editingLoading st |},
       [DeleteWorkflow workflowId])
  | DeleteFails =>
      (st, [DeleteWorkflow workflowId; ConsoleError "Error deleting workflow:"])
  end.

(** Which of the three blocks under the create box is shown. *)
Inductive block : Type :=
| LoadingState
| EmptyState
| WorkflowsGrid (cards : list workflow).

Definition render (st : home) : list block :=
  ((if loading st then [LoadingState] else [])
   ++ (if negb (loading st) && Nat.eqb (length (workflows st)) 0 then [EmptyState] else [])
   ++ (if negb (loading st) && Nat.ltb 0 (length (workflows st))
       then [WorkflowsGrid (workflows st)] else []))%list.

End HomePage.

(** ** CustomNodes/KnowledgeBaseNode: the upload section *)
Module KnowledgeBaseNode.

(** An id as the upload endpoint returns it in JSON. *)
Inductive file_id : Type :=
| IdNum (z : Z)
| IdStr (s : string).

(** [a !== b] on such ids. *)
Definition id_differs (a b : file_id) : bool :=
  match a, b with
  | IdNum x, IdNum y => negb (x =? y)
  | IdStr x, IdStr y => negb (String.eqb x y)
  | _, _ => true
  end.

Definition id_value (i : file_id) : jsval :=
  match i with
  | IdNum z => JNum z
  | IdStr s => JStr s
  end.

(** An entry of [uploadedFiles]. *)
Record uploaded : Type := {
  up_name : string;
  up_id : file_id;
  up_uploadedAt : string;
}.

Definition uploaded_value (f : uploaded) : jsval :=
  JObj [("name", JStr (up_name f)); ("id", id_value (up_id f));
        ("uploadedAt", JStr (up_uploadedAt f))].

(** The component's own state. *)
Record kb : Type := {
  uploading : bool;
  uploadedFiles : list uploaded;
}.

Inductive effect : Type :=
| ToastError (msg : string)
| ToastSuccess (msg : string)
| Upload (knowledge_base_id embedding_model : jsval) (file_name : string)
| OnUpdate (newData : obj)
| ConsoleError (msg : string)
| ResetFileInput.

(** What the awaited upload does: accepted with [result.id], refused
    with [error.detail], or the request throws. *)
Inductive upload_reply : Type :=
| UploadOk (id : file_id)
| UploadRefused (detail : option string)
| UploadThrows (message : string).

(** The double-quote character of the success toast. *)
Definition dquote : string := String (ascii_of_nat 34) EmptyString.

(** [name.endsWith(suffix)]. *)
Definition endsWith (name suffix : string) : bool :=
  String.prefix (String.rev suffix) (String.rev name).

(** [data.embeddingModel || 'gemini']. *)
Definition defaultEmbeddingModel (data : obj) : jsval :=
  js_or (get (Some data) "embeddingModel") (JStr "gemini").

(** [handleFileSelect(event)]: [file] is [event.target.files?.[0]] by
    name, [now] is [new Date().toLocaleString()]. *)
Definition handleFileSelect (data : obj) (file : option string) (now : string)
    (reply : upload_reply) (st : kb) : kb * list effect :=
  match file with
  | None => (st, [])
  | Some name =>
      if negb (endsWith name ".pdf") then
        (st, [ToastError "Only PDF files are supported"])
      else if negb (truthy (get (Some data) "knowledgeBaseId")) then
        (st, [ToastError "Please enter a Knowledge Base ID first"])
      else
        let request :=
          Upload (get (Some data) "knowledgeBaseId") (defaultEmbeddingModel data) name in
        match reply with
        | UploadOk id =>
            let newFiles :=
              (uploadedFiles st
               ++ [{| up_name := name; up_id := id; up_uploadedAt := now |}])%list in
            ({| uploading := false; uploadedFiles := newFiles |},
             [request;
              OnUpdate {[ "uploadedFiles" := JArr (List.map uploaded_value newFiles) ]};
              ToastSuccess ("File " ++ dquote ++ name ++ dquote ++ " uploaded successfully!");
              ResetFileInput])
        | UploadRefused detail =>
            ({| uploading := false; uploadedFiles := uploadedFiles st |},
             [request; ToastError (str_or detail "Failed to upload file"); ResetFileInput])
        | UploadThrows message =>
            ({| uploading := false; uploadedFiles := uploadedFiles st |},
             [request; ConsoleError "Upload Error:";
              ToastError ("Error uploading file: " ++ message); ResetFileInput])
        end
  end.

(** [handleRemoveFile(fileId)]. *)
Definition handleRemoveFile (fileId : file_id) (st : kb) : kb * list effect :=
  let newFiles := List.filter (fun f => id_differs (up_id f) fileId) (uploadedFiles st) in
  ({| uploading := uploading st; uploadedFiles := newFiles |},
   [OnUpdate {[ "uploadedFiles" := JArr (List.map uploaded_value newFiles) ]};
    ToastSuccess "File removed from list"]).

End KnowledgeBaseNode.

(** ** Derived notions and sample inputs *)

Definition origin : position := {| pos_x := 0; pos_y := 0 |}.

Definition canvas_edge (id source target : string) : edge :=
  {| edge_id := id; edge_source := source; edge_target := target;
     edge_sourceHandle := JNull; edge_targetHandle := JNull;
     edge_type := JStr "smoothstep"; edge_animated := JBool true;
     edge_markerEnd := JObj [("type", JStr MarkerType_ArrowClosed)] |}.

Definition empty_canvas : builder :=
  {| nodes := []; edges := []; selectedNode := None;
     workflowName := ""; workflowDescription := "" |}.

(** [setEdges(es)] and [setWorkflowName(v)], the hook setters. *)
Definition setEdges (es : list edge) (st : builder) : builder :=
  {| nodes := nodes st; edges := es; selectedNode := selectedNode st;
     workflowName := workflowName st; workflowDescription := workflowDescription st |}.

Definition setWorkflowName (v : string) (st : builder) : builder :=
  {| nodes := nodes st; edges := edges st; selectedNode := selectedNode st;
     workflowName := v; workflowDescription := workflowDescription st |}.

(** How many nodes of a kind the canvas holds. *)
Definition count_kind (kind : string) (ns : list node) : nat :=
  length (List.filter (is_kind kind) ns).

(** Two User Query nodes, one LLM Engine, one Output. *)
Definition two_query_canvas : builder :=
  setWorkflowName "demo"
    (setEdges [canvas_edge "e1" "u1" "l1"; canvas_edge "e2" "u2" "l1";
               canvas_edge "e3" "l1" "o1"]
       (onDrop "o1" "output" origin
          (onDrop "l1" "llmEngine" origin
             (onDrop "u2" "userQuery" origin
                (onDrop "u1" "userQuery" origin empty_canvas))))).

(** One User Query node wired straight to one Output node. *)
Definition no_engine_canvas : builder :=
  setWorkflowName "demo"
    (setEdges [canvas_edge "e1" "u1" "o1"]
       (onDrop "o1" "output" origin
          (onDrop "u1" "userQuery" origin empty_canvas))).

(** A complete linear workflow with a back edge from the engine to the
    knowledge base. *)
Definition cyclic_canvas : builder :=
  setWorkflowName "demo"
    (setEdges [canvas_edge "e1" "u1" "k1"; canvas_edge "e2" "k1" "l1";
               canvas_edge "e3" "l1" "k1"; canvas_edge "e4" "l1" "o1"]
       (onDrop "o1" "output" origin
          (onDrop "l1" "llmEngine" origin
             (onDrop "k1" "knowledgeBase" origin
                (onDrop "u1" "userQuery" origin empty_canvas))))).

(** A canvas holding one freshly dropped Knowledge Base node. *)
Definition kb_canvas : builder := onDrop "k1" "knowledgeBase" origin empty_canvas.

(** What the Top K handlers store for a typed text. *)
Definition stored_topK (value : string) : jsval :=
  match parseInt value with
  | JNum z => if z =? 0 then JNum 5 else JNum z
  | JInfinity negative => JInfinity negative
  | _ => JNum 5
  end.

(** A text of [n] digits 9. *)
Fixpoint many_nines (n : nat) : string :=
  match n with
  | O => EmptyString
  | S n' => String "9" (many_nines n')
  end.

(** The configuration of a node: its data without the update callback,
    which belongs to the running editor and is set anew on loading. *)
Definition config (n : node) : obj := delete "onUpdate" (spread_opt (node_data n)).

(** A node as the editor makes and keeps it: its kind is stored alike
    in [type] and [data.type], and its type and configuration are
    values JSON can carry. *)
Definition editor_node (n : node) : Prop :=
  node_type n = actual_type n
  /\ json_field (node_type n) = node_type n
  /\ json_obj (config n) = config n.

(** One node through saving and reopening. *)
Definition reopened_node (n : node) : node :=
  processNode (stringify_node (serialize_node n)).


(** The linear workflow User Query -> Knowledge Base -> LLM Engine ->
    Output. *)
Definition linear_canvas : builder :=
  setWorkflowName "demo"
    (setEdges [canvas_edge "e1" "u1" "k1"; canvas_edge "e2" "k1" "l1";
               canvas_edge "e3" "l1" "o1"]
       (onDrop "o1" "output" origin
          (onDrop "l1" "llmEngine" origin
             (onDrop "k1" "knowledgeBase" origin
                (onDrop "u1" "userQuery" origin empty_canvas))))).

(** The freshly dropped Knowledge Base node of [kb_canvas] and the
    [data] prop its component receives. *)
Definition kb_node : node :=
  default (createNode "" "" origin None) (head (nodes kb_canvas)).

Definition kb_node_data : obj := spread_opt (node_data kb_node).

(** That node after 7 has been typed into its Top K field. *)
Definition kb_node_after_7 : node :=
  default (createNode "" "" origin None)
    (head (nodes (KnowledgeBaseNode_topK_onChange kb_node_data "7" kb_canvas))).

(** What holds of the order the loop returns, relative to the nodes
    already emitted: every node comes after its predecessors, and each
    node has the least id among the nodes that were ready with it. *)
Definition well_ordered (edges : list (string * string)) (emitted order : list string)
    : Prop :=
  forall pre u post, order = (pre ++ u :: post)%list ->
    (forall w, (w, u) ∈ edges -> w ∈ emitted \/ w ∈ pre)
    /\ (forall v, v ∈ post ->
          (forall w, (w, v) ∈ edges -> w ∈ emitted \/ w ∈ pre) ->
          String.leb u v = true).

(** The place of an id in a list, and a graph with a tie between
    "a" and "b". *)
Definition position_in (l : list string) (s : string) : nat :=
  (fix go (l : list string) : nat :=
     match l with
     | [] => 0%nat
     | x :: l' => if String.eqb s x then 0%nat else S (go l')
     end) l.

Definition diamond : GraphCompiler.graph :=
  {| GraphCompiler.g_nodes := ["d"; "b"; "a"; "c"];
     GraphCompiler.g_edges := [("a", "c"); ("b", "c"); ("c", "d")] |}.

(** A chat with a question typed in and nothing in flight, one with a
    request in flight, and one showing session "a" of two sessions. *)
Definition fresh_chat : ChatInterface.chat :=
  {| ChatInterface.messages := []; ChatInterface.input := "  What is ML? ";
     ChatInterface.loading := false; ChatInterface.sessionId := None;
     ChatInterface.chatSessions := []; ChatInterface.sidebarOpen := true |}.

Definition busy_chat : ChatInterface.chat :=
  {| ChatInterface.messages :=
       [{| ChatInterface.role := "user"; ChatInterface.content := "first" |}];
     ChatInterface.input := "second"; ChatInterface.loading := true;
     ChatInterface.sessionId := Some "a";
     ChatInterface.chatSessions := []; ChatInterface.sidebarOpen := true |}.

Definition session_a : ChatInterface.session :=
  {| ChatInterface.session_id := "a"; ChatInterface.created_at := "2024-01-01T10:00:00" |}.

Definition session_b : ChatInterface.session :=
  {| ChatInterface.session_id := "b"; ChatInterface.created_at := "2024-01-02T10:00:00" |}.

(** The stored history of session "b". *)
Definition history_b : list ChatInterface.message :=
  [{| ChatInterface.role := "user"; ChatInterface.content := "hi" |};
   {| ChatInterface.role := "assistant"; ChatInterface.content := "hello" |}].

Definition active_chat : ChatInterface.chat :=
  {| ChatInterface.messages :=
       [{| ChatInterface.role := "user"; ChatInterface.content := "first" |};
        {| ChatInterface.role := "assistant"; ChatInterface.content := "answer" |}];
     ChatInterface.input := ""; ChatInterface.loading := false;
     ChatInterface.sessionId := Some "a";
     ChatInterface.chatSessions := [session_a; session_b];
     ChatInterface.sidebarOpen := true |}.

(** That chat with a further question typed in. *)
Definition asking_chat : ChatInterface.chat :=
  {| ChatInterface.messages := ChatInterface.messages active_chat;
     ChatInterface.input := "And DL?"; ChatInterface.loading := false;
     ChatInterface.sessionId := Some "a";
     ChatInterface.chatSessions := [session_a; session_b];
     ChatInterface.sidebarOpen := true |}.

(** ** Notions used by the further properties *)

(** Induction on values that reaches the items of arrays and the
    property values of objects. *)
Section jsval_induction.
Variable P : jsval -> Prop.
Hypothesis Hundef : P JUndefined.
Hypothesis Hnull : P JNull.
Hypothesis Hbool : forall b, P (JBool b).
Hypothesis Hnum : forall z, P (JNum z).
Hypothesis Hnan : P JNaN.
Hypothesis Hstr : forall s, P (JStr s).
Hypothesis Hfun : forall f, P (JFun f).
Hypothesis Harr : forall items, Forall P items -> P (JArr items).
Hypothesis Hobj : forall props, Forall (fun kv => P (snd kv)) props -> P (JObj props).
Hypothesis Hinf : forall b, P (JInfinity b).

Fixpoint jsval_nested_ind (v : jsval) : P v :=
  match v with
  | JUndefined => Hundef
  | JNull => Hnull
  | JBool b => Hbool b
  | JNum z => Hnum z
  | JNaN => Hnan
  | JStr s => Hstr s
  | JFun f => Hfun f
  | JArr items =>
      Harr items
        ((fix go (l : list jsval) : Forall P l :=
            match l with
            | [] => @List.Forall_nil jsval P
            | x :: l' => @List.Forall_cons jsval P x l' (jsval_nested_ind x) (go l')
            end) items)
  | JObj props =>
      Hobj props
        ((fix go (l : list (string * jsval)) : Forall (fun kv => P (snd kv)) l :=
            match l with
            | [] => @List.Forall_nil (string * jsval) (fun kv => P (snd kv))
            | kv :: l' =>
                @List.Forall_cons (string * jsval) (fun kv => P (snd kv)) kv l'
                  (jsval_nested_ind (snd kv)) (go l')
            end) props)
  | JInfinity b => Hinf b
  end.
End jsval_induction.


(** The requests and the toasts among the effects of saving. *)
Definition is_fetch (e : WorkflowBuilder.effect) : bool :=
  match e with Fetch _ _ _ => true | _ => false end.

Definition is_toast (e : WorkflowBuilder.effect) : bool :=
  match e with WorkflowBuilder.ToastError _ | WorkflowBuilder.ToastSuccess _ => true | _ => false end.


(** All code units of a string are white space. *)
Definition all_white_space (s : string) : bool :=
  forallb is_white_space (list_ascii_of_string s).


(** A list of code units without its leading white space. *)
Fixpoint drop_ws (l : list ascii) : list ascii :=
  match l with
  | c :: rest => if is_white_space c then drop_ws rest else l
  | [] => []
  end.


(** A turn of a conversation: the typed text, what the query request
    does, and what a history request does. *)
Definition chat_turn : Type :=
  string * ChatInterface.query_reply * ChatInterface.history_reply.

(** The entries a turn adds to the message list of its session. *)
Definition turn_entries (t : chat_turn) : list ChatInterface.message :=
  if String.eqb (trim (fst (fst t))) "" then []
  else match snd (fst t) with
       | ChatInterface.QueryOk _ response =>
           [{| ChatInterface.role := "user"; ChatInterface.content := trim (fst (fst t)) |};
            {| ChatInterface.role := "assistant"; ChatInterface.content := response |}]
       | ChatInterface.QueryFails _ => []
       end.


(** Whether a turn is answered: non-blank text and a successful request. *)
Definition answered (t : chat_turn) : bool :=
  negb (String.eqb (trim (fst (fst t))) "")
  && match snd (fst t) with
     | ChatInterface.QueryOk _ _ => true
     | ChatInterface.QueryFails _ => false
     end.

(** A turn whose answer, if it gets one, names the session [sid]. *)
Definition stays_in_session (sid : option string) (t : chat_turn) : Prop :=
  match snd (fst t) with
  | ChatInterface.QueryOk sid' _ => sid' = sid
  | ChatInterface.QueryFails _ => True
  end.

(** The history requests among the effects of the chat. *)
Definition is_history_request (e : ChatInterface.effect) : bool :=
  match e with ChatInterface.GetHistory _ => true | _ => false end.


(** The uploads and the node updates among the effects of the upload
    section. *)
Definition is_upload (e : KnowledgeBaseNode.effect) : bool :=
  match e with KnowledgeBaseNode.Upload _ _ _ => true | _ => false end.

Definition is_onUpdate (e : KnowledgeBaseNode.effect) : bool :=
  match e with KnowledgeBaseNode.OnUpdate _ => true | _ => false end.


(** * Properties *)

(** ** JavaScript helpers *)

Example parseInt_50 : parseInt "50" = JNum 50.
Proof. reflexivity. Qed.

Example parseInt_fraction : parseInt "  -3.7" = JNum (-3).
Proof. reflexivity. Qed.

Example parseInt_hex : parseInt "0x1f" = JNum 31.
Proof. reflexivity. Qed.

Example parseInt_empty : parseInt "" = JNaN.
Proof. reflexivity. Qed.

Example trim_inner_space : trim "  a b  " = "a b".
Proof. reflexivity. Qed.

Example parseInt_rounds_to_even : parseInt "9007199254740993" = JNum 9007199254740992.
Proof. vm_compute. reflexivity. Qed.

Example parseInt_rounds_up : parseInt "9007199254740995" = JNum 9007199254740996.
Proof. vm_compute. reflexivity. Qed.

Example parseInt_overflows : parseInt (many_nines 310) = JInfinity false.
Proof. vm_compute. reflexivity. Qed.

Lemma significand_bounds (m q r h s p52 : Z) :
  0 < h -> s = 2 * h -> m = q * s + r -> 0 <= r < s ->
  p52 * s <= m < 2 * p52 * s -> 0 < p52 ->
  p52 <= q < 2 * p52.
Proof. intros. nia. Qed.

(** [round_to_double] rounds to nearest, ties to even: the result is
    a significand of at most 53 bits times a power of two, lies within
    half a unit of that power from the number, at exactly half a unit
    only with an even significand, and stays below [2^1024]. *)
Lemma round_to_double_nearest m v :
  0 <= m -> round_to_double m = Some v ->
  exists q e, v = q * 2 ^ e /\ 0 <= e /\ 0 <= q <= 2 ^ 53
              /\ 2 * Z.abs (v - m) <= 2 ^ e
              /\ (2 * Z.abs (v - m) = 2 ^ e -> Z.even q = true)
              /\ (2 ^ 53 <= m -> 2 ^ 52 <= q)
              /\ v < 2 ^ 1024.
Proof.
  intros Hm. unfold round_to_double.
  destruct (Z.ltb_spec m (2 ^ 53)) as [Hsmall|Hbig].
  - intros [= <-]. exists m, 0. rewrite Z.sub_diag. simpl Z.abs.
    change (2 ^ 0) with 1.
    repeat split; try lia.
  - cbv zeta.
    assert (H53 : 53 <= Z.log2 m).
    { apply Z.log2_le_pow2; lia. }
    set (shift := Z.log2 m - 52). assert (Hshift : 1 <= shift) by (unfold shift; lia).
    rewrite Z.shiftr_div_pow2, Z.land_ones, !Z.shiftl_mul_pow2 by lia.
    rewrite Z.mul_1_l.
    pose proof (Z.log2_spec m ltac:(lia)) as [Hlo Hhi].
    assert (Hp : 2 ^ Z.log2 m = 2 ^ 52 * 2 ^ shift).
    { rewrite <- Z.pow_add_r by lia. f_equal. unfold shift. lia. }
    assert (Hs : 2 ^ Z.succ (Z.log2 m) = 2 * 2 ^ 52 * 2 ^ shift).
    { rewrite <- Z.mul_assoc, <- Z.pow_add_r, <- Z.pow_succ_r by lia.
      f_equal. unfold shift. lia. }
    assert (Hh : 2 ^ shift = 2 * 2 ^ (shift - 1)).
    { rewrite <- Z.pow_succ_r by lia. f_equal. lia. }
    assert (Hpos : 0 < 2 ^ (shift - 1)) by (apply Z.pow_pos_nonneg; lia).
    pose proof (Z.div_mod m (2 ^ shift) ltac:(lia)) as Hdm.
    pose proof (Z.mod_pos_bound m (2 ^ shift) ltac:(lia)) as Hr.
    rewrite Hp in Hlo. rewrite Hs in Hhi. clear Hp Hs.
    change (2 ^ 53) with (2 * 2 ^ 52) in *.
    assert (H52 : 0 < 2 ^ 52) by reflexivity.
    remember (2 ^ shift) as s eqn:Es.
    remember (2 ^ (shift - 1)) as h eqn:Eh.
    remember (m / s) as q eqn:Eq. remember (m mod s) as r eqn:Er.
    remember (2 ^ 52) as p52 eqn:E52. remember (2 ^ 1024) as big eqn:Ebig.
    clear Eh Eq Er E52 Ebig.
    assert (Hm' : m = q * s + r) by lia.
    assert (Hq : p52 <= q < 2 * p52) by (eapply (significand_bounds m q r h s p52); eauto; lia).
    destruct (Z.ltb_spec r h) as [L1|L1]; [|destruct (Z.ltb_spec h r) as [L2|L2];
      [|destruct (Z.even q) eqn:Ev]].
    all: match goal with |- (if ?v <? _ then _ else _) = _ -> _ =>
           destruct (Z.ltb_spec v big) as [Hv|Hv] end; [|discriminate].
    all: intros [= <-].
    + exists q, shift. rewrite <- Es. rewrite Z.abs_neq by lia.
      repeat split; try lia.
    + exists (q + 1), shift. rewrite <- Es.
      replace ((q + 1) * s - m) with (s - r) by lia. rewrite Z.abs_eq by lia.
      repeat split; try lia.
    + exists q, shift. rewrite <- Es. rewrite Z.abs_neq by lia.
      repeat split; try lia. intros _. exact Ev.
    + exists (q + 1), shift. rewrite <- Es.
      replace ((q + 1) * s - m) with (s - r) by lia. rewrite Z.abs_eq by lia.
      repeat split; try lia.
      intros _. rewrite Z.even_add, Ev. reflexivity.
Qed.

Example parseInt_1_to_20 :
  Forall (fun typed => parseInt (fst typed) = JNum (snd typed))
    [("1", 1); ("2", 2); ("3", 3); ("4", 4); ("5", 5); ("6", 6); ("7", 7);
     ("8", 8); ("9", 9); ("10", 10); ("11", 11); ("12", 12); ("13", 13);
     ("14", 14); ("15", 15); ("16", 16); ("17", 17); ("18", 18); ("19", 19);
     ("20", 20)].
Proof. repeat constructor. Qed.

Lemma round_to_double_exact m : m < 2 ^ 53 -> round_to_double m = Some m.
Proof.
  intros H. unfold round_to_double.
  destruct (Z.ltb_spec m (2 ^ 53)) as [_|E]; [reflexivity | lia].
Qed.

Lemma number_of_exact sign m : m < 2 ^ 53 -> number_of sign m = JNum (sign * m).
Proof. intros H. unfold number_of. rewrite round_to_double_exact by exact H. reflexivity. Qed.

Lemma parseInt_number_or_NaN value :
  parseInt value = JNaN
  \/ (exists z, parseInt value = JNum z)
  \/ (exists negative, parseInt value = JInfinity negative).
Proof.
  unfold parseInt.
  destruct (match trimStart value with String _ _ => _ | EmptyString => _ end) as [sign s2].
  destruct (match s2 with String _ (String _ _) => _ | _ => _ end) as [radix s3].
  destruct (parse_digits radix s3 None) as [m|]; [|eauto].
  unfold number_of. destruct (round_to_double m); eauto.
Qed.

Lemma js_or_parseInt value : js_or (parseInt value) (JNum 5) = stored_topK value.
Proof.
  unfold stored_topK, js_or.
  destruct (parseInt_number_or_NaN value) as [-> | [[z ->] | [b ->]]];
    [reflexivity | | reflexivity].
  simpl. destruct (z =? 0); reflexivity.
Qed.

(** ** The node factory *)

Lemma createNode_data id type pos cb :
  exists d, node_data (createNode id type pos cb) = Some d.
Proof. unfold createNode. simpl. eauto. Qed.

(** C4 (as the code has it): a node created with kind llmEngine carries
    llmProvider "gemini", whatever its id, position and callback, and
    that is also what the provider select of the node, and of the
    configuration panel, shows for it. *)
Theorem createNode_llmProvider_is_gemini id pos cb :
  get (node_data (createNode id "llmEngine" pos cb)) "llmProvider" = JStr "gemini"
  /\ LLMEngineNode_llmProvider_value
       (spread_opt (node_data (createNode id "llmEngine" pos cb))) = JStr "gemini"
  /\ ComponentConfigPanel_llmProvider_value
       (spread_opt (node_data (createNode id "llmEngine" pos cb))) = JStr "gemini".
Proof. repeat split; reflexivity. Qed.

(** C4 (counterexample): the llmProvider of a fresh llmEngine node is
    not "openai". *)
Lemma createNode_llmProvider_not_openai :
  get (node_data (createNode "node_1" "llmEngine" origin None)) "llmProvider"
  <> JStr "openai".
Proof. vm_compute. discriminate. Qed.

(** ** Node updates *)

Lemma handleNodeUpdate_nodes i newData st n' :
  n' ∈ nodes (handleNodeUpdate i newData st) ->
  exists n, n ∈ nodes st /\ node_id n' = node_id n
    /\ (node_id n = i -> node_data n' = Some (spread (spread_opt (node_data n)) newData))
    /\ (node_id n <> i -> n' = n).
Proof.
  unfold handleNodeUpdate. simpl. rewrite list_elem_of_fmap.
  intros (n & -> & Hn). exists n. split; [exact Hn|].
  destruct (String.eqb_spec (node_id n) i) as [E|E]; simpl;
    repeat split; intros; congruence.
Qed.

Lemma handleNodeUpdate_get i newData st n' k v :
  n' ∈ nodes (handleNodeUpdate i newData st) -> node_id n' = i ->
  newData !! k = Some v -> get (node_data n') k = v.
Proof.
  intros Hin Hid Hk.
  destruct (handleNodeUpdate_nodes _ _ _ _ Hin) as (n & _ & Hidn & Hupd & _).
  rewrite Hupd by congruence. unfold get, spread.
  erewrite lookup_union_Some_l by exact Hk. reflexivity.
Qed.

(** C5 (as the code has it): a node created with kind knowledgeBase
    carries topK 5; when a text is typed into the node's Top K field,
    the node stores [parseInt(text) || 5], where [parseInt] yields a
    double: the parsed number as it is when that is a non-zero number
    or an infinity, and 5 when it is zero or [NaN].  Nothing brings the
    stored number into 1..20. *)
Theorem topK_default_and_edit (id i value : string) (pos : position)
    (cb : option callback) (d : obj) (st : builder) (n' : node)
    (Hcb : get (Some d) "onUpdate" = JFun (CbUpdateNode i))
    (Hin : n' ∈ nodes (KnowledgeBaseNode_topK_onChange d value st))
    (Hid : node_id n' = i) :
  get (node_data (createNode id "knowledgeBase" pos cb)) "topK" = JNum 5
  /\ get (node_data n') "topK" = js_or (parseInt value) (JNum 5)
  /\ (parseInt value = JNaN /\ get (node_data n') "topK" = JNum 5
      \/ parseInt value = JNum 0 /\ get (node_data n') "topK" = JNum 5
      \/ (exists z, z <> 0 /\ parseInt value = JNum z
                    /\ get (node_data n') "topK" = JNum z)
      \/ (exists negative, parseInt value = JInfinity negative
                    /\ get (node_data n') "topK" = JInfinity negative)).
Proof.
  assert (Hget : get (node_data n') "topK" = js_or (parseInt value) (JNum 5)).
  { unfold KnowledgeBaseNode_topK_onChange in Hin. rewrite Hcb in Hin. simpl in Hin.
    eapply handleNodeUpdate_get; [exact Hin | exact Hid |].
    apply lookup_singleton_eq. }
  split; [reflexivity|]. split; [exact Hget|].
  rewrite Hget. unfold js_or.
  destruct (parseInt_number_or_NaN value) as [E | [[z E] | [b E]]]; rewrite E.
  - left. split; reflexivity.
  - destruct (Z.eqb_spec z 0) as [->|Hz].
    + right. left. split; reflexivity.
    + right. right. left. exists z. simpl.
      destruct (Z.eqb_spec z 0) as [?|_]; [contradiction|]. auto.
  - right. right. right. exists b. split; reflexivity.
Qed.

Lemma topK_default_and_edit_witness :
  get (node_data (createNode "k1" "knowledgeBase" origin None)) "topK" = JNum 5
  /\ get (node_data kb_node_after_7) "topK" = js_or (parseInt "7") (JNum 5)
  /\ (parseInt "7" = JNaN /\ get (node_data kb_node_after_7) "topK" = JNum 5
      \/ parseInt "7" = JNum 0 /\ get (node_data kb_node_after_7) "topK" = JNum 5
      \/ (exists z, z <> 0 /\ parseInt "7" = JNum z
                    /\ get (node_data kb_node_after_7) "topK" = JNum z)
      \/ (exists negative, parseInt "7" = JInfinity negative
                    /\ get (node_data kb_node_after_7) "topK" = JInfinity negative)).
Proof.
  apply (topK_default_and_edit "k1" "k1" "7" origin None kb_node_data kb_canvas
           kb_node_after_7).
  - reflexivity.
  - apply list_elem_of_In. vm_compute. left. reflexivity.
  - reflexivity.
Defined.

Example KnowledgeBaseNode_topK_shown_when_fresh :
  KnowledgeBaseNode_topK_value kb_node_data = JNum 5.
Proof. reflexivity. Qed.

Example KnowledgeBaseNode_topK_cleared :
  List.map (fun n => get (node_data n) "topK")
    (nodes (KnowledgeBaseNode_topK_onChange kb_node_data "" kb_canvas)) = [JNum 5].
Proof. vm_compute. reflexivity. Qed.

Example ComponentConfigPanel_topK_cleared :
  List.map (fun n => get (node_data n) "topK")
    (nodes (ComponentConfigPanel_topK_onChange kb_node kb_node_data "" kb_canvas))
  = [JNaN].
Proof. vm_compute. reflexivity. Qed.

Example ComponentConfigPanel_topK_50 :
  List.map (fun n => get (node_data n) "topK")
    (nodes (ComponentConfigPanel_topK_onChange kb_node kb_node_data "50" kb_canvas))
  = [JNum 50].
Proof. vm_compute. reflexivity. Qed.

(** C5 (counterexample): typing 50 into the Top K field of a fresh
    Knowledge Base node stores 50, which lies outside 1..20. *)
Lemma topK_50_is_stored_unclamped :
  List.map (fun n => get (node_data n) "topK")
    (nodes (KnowledgeBaseNode_topK_onChange kb_node_data "50" kb_canvas)) = [JNum 50]
  /\ ~ (1 <= 50 <= 20).
Proof. split; [vm_compute; reflexivity | lia]. Qed.

(** ** Validation before saving *)

Lemma existsb_count kind ns :
  existsb (is_kind kind) ns = true <-> (1 <= count_kind kind ns)%nat.
Proof.
  unfold count_kind. induction ns as [|n ns IH]; simpl.
  - split; [discriminate | lia].
  - destruct (is_kind kind n); simpl; [split; [lia | reflexivity] | exact IH].
Qed.

Lemma existsb_count_0 kind ns :
  existsb (is_kind kind) ns = false <-> count_kind kind ns = 0%nat.
Proof.
  pose proof (existsb_count kind ns) as H.
  destruct (existsb (is_kind kind) ns); split; intros; try reflexivity; try discriminate.
  - destruct H as [H _]. specialize (H eq_refl). lia.
  - destruct H as [_ H]. destruct (count_kind kind ns); [reflexivity | lia].
Qed.

Lemma truthy_str_nonempty s : truthy (JStr s) = true <-> s <> "".
Proof.
  simpl. destruct (String.eqb_spec s ""); simpl; split; intros; congruence.
Qed.

(** C1 (as the code has it): the checks made before saving pass exactly
    when the trimmed name is non-empty and the canvas holds at least
    one User Query, at least one LLM Engine and at least one Output
    node; the nodes of a kind are not counted beyond that. *)
Theorem validate_passes_iff (st : builder) :
  validate st = None <->
  trim (workflowName st) <> ""
  /\ (1 <= count_kind "userQuery" (nodes st))%nat
  /\ (1 <= count_kind "llmEngine" (nodes st))%nat
  /\ (1 <= count_kind "output" (nodes st))%nat.
Proof.
  unfold validate, hasUserQuery, hasLLM, hasOutput.
  rewrite <- truthy_str_nonempty, <- !existsb_count.
  destruct (truthy (JStr (trim (workflowName st)))); simpl;
    [| split; [discriminate | intros [? _]; discriminate]].
  destruct (existsb (is_kind "userQuery") (nodes st)),
           (existsb (is_kind "llmEngine") (nodes st)),
           (existsb (is_kind "output") (nodes st)); simpl;
    split; try discriminate; try tauto; intros (_ & ? & ? & ?); discriminate.
Qed.

(** C1 (counterexample): a named canvas with two User Query nodes, one
    LLM Engine and one Output passes the checks and is sent to the
    server. *)
Lemma two_query_canvas_is_accepted :
  count_kind "userQuery" (nodes two_query_canvas) = 2%nat
  /\ count_kind "output" (nodes two_query_canvas) = 1%nat
  /\ validate two_query_canvas = None
  /\ forall reply,
       head (handleSaveWorkflow None two_query_canvas reply)
       = Some (Fetch "http://localhost:8000/api/workflows/" "POST"
                 (stringify (serialize two_query_canvas))).
Proof.
  split; [vm_compute; reflexivity|].
  split; [vm_compute; reflexivity|].
  assert (H : validate two_query_canvas = None) by (vm_compute; reflexivity).
  split; [exact H|].
  intros reply. unfold handleSaveWorkflow. rewrite H. reflexivity.
Qed.

(** C2 (as the code has it): a canvas without an LLM Engine node never
    passes the checks made before saving: the handler shows one error
    toast and sends nothing; when the name is present the toast is the
    one naming the three required components. *)
Theorem no_engine_is_refused (st : builder) (editingWorkflow : option workflow)
    (reply : save_reply)
    (Hno : count_kind "llmEngine" (nodes st) = 0%nat) :
  (exists msg, validate st = Some msg
     /\ handleSaveWorkflow editingWorkflow st reply = [ToastError msg])
  /\ (trim (workflowName st) <> "" ->
      validate st
      = Some "Workflow must contain User Query, LLM Engine, and Output components").
Proof.
  apply existsb_count_0 in Hno.
  unfold handleSaveWorkflow, validate, hasLLM. rewrite Hno.
  split.
  - destruct (negb (truthy (JStr (trim (workflowName st))))); [eauto|].
    rewrite orb_true_r. simpl. eauto.
  - intros Hname. apply truthy_str_nonempty in Hname. rewrite Hname. simpl.
    rewrite orb_true_r. reflexivity.
Qed.

Lemma no_engine_is_refused_witness :
  (exists msg, validate no_engine_canvas = Some msg
     /\ handleSaveWorkflow None no_engine_canvas (SaveRefused None) = [ToastError msg])
  /\ (trim (workflowName no_engine_canvas) <> "" ->
      validate no_engine_canvas
      = Some "Workflow must contain User Query, LLM Engine, and Output components").
Proof.
  apply (no_engine_is_refused no_engine_canvas None (SaveRefused None)).
  vm_compute. reflexivity.
Defined.

(** C2 (counterexample): a named canvas with exactly one User Query
    node, exactly one Output node and no LLM Engine node is refused by
    the checks made before saving. *)
Lemma no_engine_canvas_is_refused :
  count_kind "userQuery" (nodes no_engine_canvas) = 1%nat
  /\ count_kind "output" (nodes no_engine_canvas) = 1%nat
  /\ count_kind "llmEngine" (nodes no_engine_canvas) = 0%nat
  /\ validate no_engine_canvas <> None.
Proof.
  repeat split; try (vm_compute; reflexivity).
  vm_compute. discriminate.
Qed.

(** C3 (as the code has it): the checks made before saving never look
    at the edges: replacing the edge set by any other leaves their
    verdict unchanged, and whenever they pass the workflow is sent to
    the server and, if the server accepts it, handed on to the chat. *)
Theorem validate_ignores_edges (st : builder) (es : list edge)
    (editingWorkflow : option workflow) (w : workflow) :
  validate (setEdges es st) = validate st
  /\ (validate st = None ->
      exists url method ok,
        handleSaveWorkflow editingWorkflow (setEdges es st) (SaveOk w)
        = [Fetch url method (stringify (serialize (setEdges es st)));
           ToastSuccess ok; OnWorkflowReady w]).
Proof.
  split; [reflexivity|].
  intros H. unfold handleSaveWorkflow.
  change (validate (setEdges es st)) with (validate st). rewrite H.
  eauto.
Qed.

(** C3 (counterexample): a named canvas whose edges contain the cycle
    k1 -> l1 -> k1 passes the checks, is sent to the server and, on the
    server's acceptance, handed on to the chat; no toast mentions a
    cycle. *)
Lemma cyclic_canvas_is_accepted :
  GraphCompiler.has_cycle (GraphCompiler.g_edges (GraphCompiler.graph_of cyclic_canvas))
  /\ validate cyclic_canvas = None
  /\ forall w,
       handleSaveWorkflow None cyclic_canvas (SaveOk w)
       = [Fetch "http://localhost:8000/api/workflows/" "POST"
            (stringify (serialize cyclic_canvas));
          ToastSuccess "Workflow saved successfully!"; OnWorkflowReady w].
Proof.
  assert (H : validate cyclic_canvas = None) by (vm_compute; reflexivity).
  split; [|split; [exact H|]].
  - exists "k1". apply tc_l with "l1"; [|apply tc_once];
      unfold GraphCompiler.edge_rel; apply list_elem_of_In; vm_compute; tauto.
  - intros w. unfold handleSaveWorkflow. rewrite H. reflexivity.
Qed.

(** ** The chat interface *)
Section Chat.
Import ChatInterface.

(** Unfolds a handler down to its state and effect log. *)
Ltac run_handler :=
  unfold state_after, effects_of, handleSend, handleSend_before, handleSend_after,
    handleDeleteSession, mbind, handler_bind, emit, read;
  cbv beta iota zeta.

Lemma slice_0_minus1_snoc {A} (l : list A) (x : A) : slice_0_minus1 (l ++ [x]) = l.
Proof. unfold slice_0_minus1. apply removelast_last. Qed.

Lemma filter_keeps_other_ids (s : session) (l : list session) :
  forall s', s' ∈ List.filter (fun s' => negb (String.eqb (session_id s') (session_id s))) l ->
  session_id s' <> session_id s.
Proof.
  intros s' Hin. apply list_elem_of_In, filter_In in Hin as [_ Hne].
  destruct (String.eqb_spec (session_id s') (session_id s)); [discriminate | assumption].
Qed.

Lemma handleSend_guarded workflow_id reply st :
  (negb (truthy (JStr (trim (input st)))) || loading st)%bool = true ->
  handleSend workflow_id reply st = (tt, st, [PreventDefault]).
Proof.
  intros H. run_handler. rewrite H. reflexivity.
Qed.

Lemma handleSend_before_runs workflow_id st :
  truthy (JStr (trim (input st))) = true -> loading st = false ->
  handleSend_before workflow_id st
  = (true,
     {| messages := (messages st ++ [{| role := "user"; content := trim (input st) |}])%list;
        input := ""; loading := true; sessionId := sessionId st;
        chatSessions := chatSessions st; sidebarOpen := sidebarOpen st |},
     [PreventDefault; PostQuery (trim (input st)) workflow_id (sessionId st)]).
Proof.
  intros Ht Hl. unfold handleSend_before, mbind, handler_bind, emit, read.
  cbv beta iota zeta. rewrite Ht, Hl. reflexivity.
Qed.

Lemma handleSend_after_state workflow_id reply st :
  state_after (handleSend_after workflow_id reply) st
  = {| messages :=
         match reply with
         | QueryOk _ response =>
             (messages st ++ [{| role := "assistant"; content := response |}])%list
         | QueryFails _ => slice_0_minus1 (messages st)
         end;
       input := input st;
       loading := false;
       sessionId := match reply with QueryOk sid _ => sid | QueryFails _ => sessionId st end;
       chatSessions := chatSessions st;
       sidebarOpen := sidebarOpen st |}.
Proof. destruct reply; reflexivity. Qed.

Lemma handleSend_with_state during workflow_id reply st :
  truthy (JStr (trim (input st))) = true -> loading st = false ->
  state_after (handleSend_with during workflow_id reply) st
  = state_after (handleSend_after workflow_id reply)
      (state_after during
         {| messages :=
              (messages st ++ [{| role := "user"; content := trim (input st) |}])%list;
            input := ""; loading := true; sessionId := sessionId st;
            chatSessions := chatSessions st; sidebarOpen := sidebarOpen st |}).
Proof.
  intros Ht Hl. unfold handleSend_with, state_after, mbind, handler_bind.
  rewrite (handleSend_before_runs workflow_id st Ht Hl). cbv beta iota zeta.
  destruct (during _) as [[[] st2] out2]. simpl.
  destruct (handleSend_after workflow_id reply st2) as [[[] st3] out3]. reflexivity.
Qed.

(** A turn whose guard passes (non-blank input, nothing in flight) and
    during whose request nothing touches the message list appends
    exactly the user entry and then the assistant entry and makes the
    returned session id current when the request succeeds, and leaves
    the message list as it was when the request fails. *)
Lemma handleSend_undisturbed (during : handler unit) (workflow_id : string)
    (reply : query_reply) (st : chat) :
  (forall s, messages (state_after during s) = messages s) ->
  trim (input st) <> "" -> loading st = false ->
  let st' := state_after (handleSend_with during workflow_id reply) st in
  match reply with
  | QueryOk sid response =>
      messages st'
      = (messages st ++ [{| role := "user"; content := trim (input st) |};
                         {| role := "assistant"; content := response |}])%list
      /\ sessionId st' = sid
  | QueryFails _ => messages st' = messages st
  end.
Proof.
  intros Hduring Hinput Hidle. apply truthy_str_nonempty in Hinput. cbv zeta.
  rewrite (handleSend_with_state during workflow_id reply st Hinput Hidle).
  rewrite handleSend_after_state, Hduring.
  destruct reply as [sid response | detail]; simpl.
  - split; [|reflexivity]. rewrite <- app_assoc. reflexivity.
  - apply slice_0_minus1_snoc.
Qed.

Example handleSend_alone :
  (messages (state_after (handleSend "wf1" (QueryOk (Some "s1") "Hello!")) fresh_chat)
   = [{| role := "user"; content := "What is ML?" |};
      {| role := "assistant"; content := "Hello!" |}]
   /\ sessionId (state_after (handleSend "wf1" (QueryOk (Some "s1") "Hello!")) fresh_chat)
      = Some "s1")
  /\ messages (state_after (handleSend "wf1" (QueryFails None)) fresh_chat) = [].
Proof. repeat split. Qed.

(** Whatever the message list holds when a failed request settles, the
    handler drops its last entry. *)
Lemma handleSend_after_failure workflow_id detail st :
  messages (state_after (handleSend_after workflow_id (QueryFails detail)) st)
  = removelast (messages st).
Proof. reflexivity. Qed.

(** C6 (the code at the failing run): session "a" is shown with two
    entries and a question is sent; while the request is pending the
    user opens session "b", whose two entries are loaded; then the
    request fails.  The handler drops the last entry of the list as it
    is then, so the list ends as the first entry of session "b" alone:
    it is neither what was shown before the turn nor the session now
    shown, and the entry that was dropped is not the question. *)
Theorem handleSend_interrupted_drops_history_entry :
  let during := rendered (handleSessionClick session_b) (HistoryOk history_b) in
  let run := handleSend_with during "wf1" (QueryFails None) in
  messages (state_after run asking_chat) = [{| role := "user"; content := "hi" |}]
  /\ sessionId (state_after run asking_chat) = Some "b"
  /\ messages (state_after run asking_chat) <> messages asking_chat
  /\ messages (state_after run asking_chat) <> history_b
  /\ effects_of run asking_chat
     = [PreventDefault; PostQuery "And DL?" "wf1" (Some "a"); GetHistory "b";
        ToastError "Error processing query"].
Proof. repeat split; vm_compute; discriminate. Qed.

(** A request that succeeds after the user has started a new chat
    leaves the answer without its question; this is the list as the
    handler leaves it, before the history of the answer's session is
    requested. *)
Example handleSend_interrupted_by_new_chat :
  let run := handleSend_with (rendered handleNewChat HistoryFails) "wf1"
               (QueryOk (Some "a") "A kind of ML.") in
  messages (state_after run asking_chat)
  = [{| role := "assistant"; content := "A kind of ML." |}].
Proof. reflexivity. Qed.

(** C9: when the trimmed input is empty or a request is in flight, the
    send handler starts no request and leaves the whole chat state
    (messages, session id, input, loading flag and the rest) as it
    was. *)
Theorem handleSend_guard_is_frame (workflow_id : string) (reply : query_reply)
    (st : chat)
    (Hguard : trim (input st) = "" \/ loading st = true) :
  state_after (handleSend workflow_id reply) st = st
  /\ List.filter is_request (effects_of (handleSend workflow_id reply) st) = [].
Proof.
  assert (H : (negb (truthy (JStr (trim (input st)))) || loading st)%bool = true).
  { destruct Hguard as [E | E]; rewrite E; [reflexivity | apply orb_true_r]. }
  unfold state_after, effects_of.
  rewrite (handleSend_guarded workflow_id reply st H). split; reflexivity.
Qed.

Lemma handleSend_guard_is_frame_witness :
  state_after (handleSend "wf1" (QueryOk (Some "s1") "Hello!")) busy_chat = busy_chat
  /\ List.filter is_request
       (effects_of (handleSend "wf1" (QueryOk (Some "s1") "Hello!")) busy_chat) = [].
Proof.
  apply (handleSend_guard_is_frame "wf1" (QueryOk (Some "s1") "Hello!") busy_chat).
  right. reflexivity.
Defined.

(** C10: after a session has been deleted successfully, the sessions
    list holds no entry with its id; if it was the active session, the
    active id becomes null and the message list empty; otherwise both
    are as before. *)
Theorem handleDeleteSession_ok (s : session) (st : chat) :
  let st' := state_after (handleDeleteSession s DeleteOk) st in
  (forall s', s' ∈ chatSessions st' -> session_id s' <> session_id s)
  /\ (sessionId st = Some (session_id s) -> sessionId st' = None /\ messages st' = [])
  /\ (sessionId st <> Some (session_id s) ->
      sessionId st' = sessionId st /\ messages st' = messages st).
Proof.
  pose proof (filter_keeps_other_ids s (chatSessions st)) as Hsess.
  run_handler.
  destruct (sessionId st) as [cur|] eqn:Ecur; simpl.
  - destruct (String.eqb_spec cur (session_id s)) as [E|E]; simpl;
      repeat split; try assumption; congruence.
  - repeat split; try assumption; congruence.
Qed.

Example handleSend_effects_on_success :
  effects_of (handleSend "wf1" (QueryOk (Some "s1") "Hello!")) fresh_chat
  = [PreventDefault; PostQuery "What is ML?" "wf1" None; GetSessions "wf1"].
Proof. vm_compute. reflexivity. Qed.

Example handleSend_effects_on_failure :
  effects_of (handleSend "wf1" (QueryFails None)) fresh_chat
  = [PreventDefault; PostQuery "What is ML?" "wf1" None;
     ToastError "Error processing query"].
Proof. vm_compute. reflexivity. Qed.

Example handleDeleteSession_active :
  let st' := state_after (handleDeleteSession session_a DeleteOk) active_chat in
  chatSessions st' = [session_b] /\ sessionId st' = None /\ messages st' = [].
Proof. vm_compute. repeat split. Qed.

Example handleDeleteSession_failure :
  state_after (handleDeleteSession session_a DeleteFails) active_chat = active_chat.
Proof. reflexivity. Qed.

End Chat.

(** ** Saving and reopening a workflow *)

Lemma get_config_ne (n : node) (k : string) :
  k <> "onUpdate" -> get (node_data n) k = default JUndefined (config n !! k).
Proof.
  intros Hk. unfold config, get, spread_opt.
  destruct (node_data n) as [d|]; simpl.
  - rewrite lookup_delete_ne by congruence. reflexivity.
  - rewrite lookup_delete_ne by congruence. rewrite lookup_empty. reflexivity.
Qed.


Lemma actual_type_config n :
  actual_type n = js_or (default JUndefined (config n !! "type")) (node_type n).
Proof. unfold actual_type. rewrite get_config_ne by discriminate. reflexivity. Qed.

Lemma reopened_node_config n :
  config (reopened_node n) = json_obj (config n).
Proof.
  unfold config, reopened_node, processNode, stringify_node, serialize_node. simpl.
  rewrite delete_insert_eq. unfold json_obj. rewrite omap_delete. f_equal.
  destruct (node_data n); simpl; [reflexivity | symmetry; apply omap_empty].
Qed.

Lemma reopened_node_type n :
  node_type (reopened_node n) = json_field (actual_type n).
Proof. reflexivity. Qed.




Lemma save_and_open_in_nodes prior id st :
  nodes (save_and_open_in prior id st) = List.map reopened_node (nodes st).
Proof.
  unfold save_and_open_in, loadEditingWorkflow, stored, stringify, serialize. simpl.
  rewrite !List.map_map. reflexivity.
Qed.

Lemma save_and_open_in_edges prior id st :
  edges (save_and_open_in prior id st)
  = List.map (fun e => processEdge (serialize_edge e)) (edges st).
Proof.
  unfold save_and_open_in, loadEditingWorkflow, stored, stringify, serialize. simpl.
  rewrite List.map_map. reflexivity.
Qed.

Lemma save_and_open_in_name prior id st :
  workflowName (save_and_open_in prior id st) = workflowName st.
Proof.
  unfold save_and_open_in, loadEditingWorkflow, stored, str_or. simpl.
  destruct (String.eqb_spec (workflowName st) ""); congruence.
Qed.


Lemma save_and_reopen_nodes id st :
  nodes (save_and_reopen id st) = List.map reopened_node (nodes st).
Proof. exact (save_and_open_in_nodes st id st). Qed.

Lemma save_and_reopen_edges id st :
  edges (save_and_reopen id st)
  = List.map (fun e => processEdge (serialize_edge e)) (edges st).
Proof. exact (save_and_open_in_edges st id st). Qed.

Lemma save_and_reopen_name id st :
  workflowName (save_and_reopen id st) = workflowName st.
Proof. exact (save_and_open_in_name st id st). Qed.



Lemma save_and_open_in_graph prior id st :
  GraphCompiler.graph_of (save_and_open_in prior id st) = GraphCompiler.graph_of st.
Proof.
  unfold GraphCompiler.graph_of.
  rewrite save_and_open_in_nodes, save_and_open_in_edges, !List.map_map. reflexivity.
Qed.

Lemma save_and_reopen_graph id st :
  GraphCompiler.graph_of (save_and_reopen id st) = GraphCompiler.graph_of st.
Proof. exact (save_and_open_in_graph st id st). Qed.




(** A Top K beyond the largest double does not survive either: the
    node stores an infinity, which JSON writes as [null]. *)
Example infinite_topK_is_saved_as_null :
  let st := KnowledgeBaseNode_topK_onChange kb_node_data (many_nines 310) kb_canvas in
  List.map (fun n => get (node_data n) "topK") (nodes st) = [JInfinity false]
  /\ List.map (fun n => get (node_data n) "topK")
       (nodes (save_and_open_in empty_canvas "wf1" st)) = [JNull].
Proof. split; vm_compute; reflexivity. Qed.

(** *** The editor keeps its nodes in that form *)

Lemma json_obj_stable_iff (m : obj) :
  json_obj m = m <-> forall k v, m !! k = Some v -> json v = Some v.
Proof.
  unfold json_obj. split.
  - intros H k v Hk. assert (Hk' : omap json m !! k = Some v) by (rewrite H; exact Hk).
    rewrite lookup_omap, Hk in Hk'. exact Hk'.
  - intros H. apply map_eq. intros k. rewrite lookup_omap.
    destruct (m !! k) as [v|] eqn:E; simpl; [|reflexivity].
    rewrite (H k v E). reflexivity.
Qed.

Lemma editor_node_ext n m :
  node_type n = node_type m -> config n = config m -> editor_node m -> editor_node n.
Proof.
  intros Ht Hc. unfold editor_node.
  rewrite !actual_type_config, Ht, Hc. tauto.
Qed.

(** What [Object.prototype] provides is truthy and is not a string. *)
Lemma Object_prototype_value key v :
  Object_prototype key = Some v ->
  truthy v = true /\ (forall lit, strict_eq_str v lit = false)
  /\ (v = JObj [] \/ v = JFun (CbNative key)).
Proof.
  unfold Object_prototype. destruct (String.eqb key "__proto__").
  - intros [= <-]. auto.
  - destruct (existsb (String.eqb key) Object_prototype_functions); [|discriminate].
    intros [= <-]. auto.
Qed.

(** The own keys of the two tables hide nothing inherited. *)
Lemma nodeTypeMap_own type s :
  nodeTypeMap !! type = Some s -> s = type /\ Object_prototype type = None.
Proof.
  unfold nodeTypeMap. intros H.
  repeat (apply lookup_insert_Some in H as [[<- <-]|[_ H]]; [split; reflexivity|]).
  apply lookup_singleton_Some in H as [<- <-]. split; reflexivity.
Qed.

Lemma nodeLabels_own type s :
  nodeLabels !! type = Some s -> s <> "" /\ Object_prototype type = None.
Proof.
  unfold nodeLabels. intros H.
  repeat (apply lookup_insert_Some in H as [[<- <-]|[_ H]]; [split; [discriminate|reflexivity]|]).
  apply lookup_singleton_Some in H as [<- <-]. split; [discriminate|reflexivity].
Qed.

(** [nodeTypeMap[type] || type] and [nodeLabels[type] || type]. *)
Lemma nodeTypeMap_or_type type :
  js_or (table_get nodeTypeMap type) (JStr type)
  = default (JStr type) (Object_prototype type).
Proof.
  unfold table_get, js_or. destruct (nodeTypeMap !! type) as [s|] eqn:E.
  - apply nodeTypeMap_own in E as [-> ->]. simpl. destruct (String.eqb type ""); reflexivity.
  - destruct (Object_prototype type) as [v|] eqn:Ev; simpl; [|reflexivity].
    apply Object_prototype_value in Ev as [-> _]. reflexivity.
Qed.

Lemma nodeLabels_or_type type :
  js_or (table_get nodeLabels type) (JStr type)
  = default (JStr (default type (nodeLabels !! type))) (Object_prototype type).
Proof.
  unfold table_get, js_or. destruct (nodeLabels !! type) as [s|] eqn:E.
  - apply nodeLabels_own in E as [Hs ->]. simpl.
    apply String.eqb_neq in Hs. rewrite Hs. reflexivity.
  - destruct (Object_prototype type) as [v|] eqn:Ev; simpl.
    + apply Object_prototype_value in Ev as [-> _]. reflexivity.
    + destruct (String.eqb type ""); reflexivity.
Qed.

Lemma createNode_type id type pos cb :
  node_type (createNode id type pos cb) = default (JStr type) (Object_prototype type).
Proof. unfold createNode. simpl. apply nodeTypeMap_or_type. Qed.

Lemma createNode_editor_node id type pos cb :
  Object_prototype type = None -> editor_node (createNode id type pos cb).
Proof.
  intros Hown. unfold editor_node. rewrite createNode_type, Hown.
  unfold actual_type, config, createNode.
  rewrite nodeLabels_or_type, Hown. simpl.
  destruct (String.eqb type "knowledgeBase"); [|destruct (String.eqb type "llmEngine")].
  all: split; [vm_compute; destruct type; reflexivity|].
  all: split; [reflexivity|].
  all: vm_compute; reflexivity.
Qed.

Lemma onDrop_editor_nodes id type pos st :
  Object_prototype type = None ->
  Forall editor_node (nodes st) -> Forall editor_node (nodes (onDrop id type pos st)).
Proof.
  intros Hown H. unfold onDrop. destruct (String.eqb type ""); [exact H|]. simpl.
  apply Forall_app. split; [exact H|]. constructor; [|constructor].
  eapply editor_node_ext; [| |apply (createNode_editor_node id type pos None Hown)].
  - reflexivity.
  - unfold config. simpl. rewrite delete_insert_eq. reflexivity.
Qed.

(** An update that carries JSON values and leaves [type] alone. *)
Lemma handleNodeUpdate_editor_nodes i (newData : obj) st :
  newData !! "type" = None ->
  json_obj (delete "onUpdate" newData) = delete "onUpdate" newData ->
  Forall editor_node (nodes st) ->
  Forall editor_node (nodes (handleNodeUpdate i newData st)).
Proof.
  intros Hty Hjson H. unfold handleNodeUpdate. simpl.
  apply List.Forall_map. eapply List.Forall_impl; [|exact H].
  intros n (Htype & Hfield & Hconfig).
  destruct (String.eqb (node_id n) i); [|repeat split; assumption].
  assert (Hc : config {| node_id := node_id n; node_type := node_type n;
                         node_position := node_position n;
                         node_data := Some (spread (spread_opt (node_data n)) newData) |}
               = delete "onUpdate" newData ∪ config n).
  { unfold config, spread. simpl. apply delete_union. }
  unfold editor_node. rewrite actual_type_config, Hc. simpl.
  rewrite lookup_union_r by (rewrite lookup_delete_ne by discriminate; exact Hty).
  rewrite <- actual_type_config. repeat split; try assumption.
  apply json_obj_stable_iff. intros k v Hk.
  apply lookup_union_Some_raw in Hk as [Hk | [_ Hk]].
  - exact (proj1 (json_obj_stable_iff _) Hjson k v Hk).
  - exact (proj1 (json_obj_stable_iff _) Hconfig k v Hk).
Qed.

(** A Top K edit keeps that form unless the typed number is beyond the
    largest double: JSON has no infinity. *)
Lemma topK_onChange_editor_nodes (d : obj) value st :
  (forall negative, parseInt value <> JInfinity negative) ->
  Forall editor_node (nodes st) ->
  Forall editor_node (nodes (KnowledgeBaseNode_topK_onChange d value st)).
Proof.
  intros Hfinite H. unfold KnowledgeBaseNode_topK_onChange, invoke.
  destruct (get (Some d) "onUpdate") as [| | | | | |[|target|]| | |]; try exact H.
  apply handleNodeUpdate_editor_nodes; [reflexivity | | exact H].
  rewrite js_or_parseInt. unfold stored_topK.
  destruct (parseInt value) as [| | |z| | | | | |b]; try (vm_compute; reflexivity).
  - destruct (z =? 0); apply json_obj_stable_iff; intros k v Hk;
      rewrite lookup_delete_ne in Hk by
        (intros <-; rewrite lookup_delete_eq in Hk; discriminate);
      apply lookup_singleton_Some in Hk as [_ <-]; reflexivity.
  - destruct (Hfinite b). reflexivity.
Qed.

(** ** The execution-order compiler *)
Section Compiler.
Import GraphCompiler.

(** *** The order on node ids *)

Lemma leb_trans a b c :
  String.leb a b = true -> String.leb b c = true -> String.leb a c = true.
Proof.
  unfold String.leb. revert b c.
  induction a as [|x a IH]; intros [|y b] [|z c]; simpl; try congruence.
  unfold Ascii.compare.
  destruct (N.compare_spec (N_of_ascii x) (N_of_ascii y)) as [E1|L1|G1];
    destruct (N.compare_spec (N_of_ascii y) (N_of_ascii z)) as [E2|L2|G2];
    destruct (N.compare_spec (N_of_ascii x) (N_of_ascii z)) as [E3|L3|G3];
    try congruence; try lia; apply IH.
Qed.

Lemma least_in x l : least x l ∈ x :: l.
Proof.
  revert x. induction l as [|y l IH]; intros x; simpl; [set_solver|].
  destruct (String.leb x y); [pose proof (IH x) | pose proof (IH y)];
    rewrite !elem_of_cons in *; tauto.
Qed.

Lemma least_le x l y : y ∈ x :: l -> String.leb (least x l) y = true.
Proof.
  revert x y. induction l as [|z l IH]; intros x y Hy; simpl.
  - apply list_elem_of_singleton in Hy as ->.
    destruct (String.leb_total x x); assumption.
  - destruct (String.leb x z) eqn:E.
    + apply elem_of_cons in Hy as [-> | Hy]; [apply IH; set_solver|].
      apply elem_of_cons in Hy as [-> | Hy]; [|apply IH; set_solver].
      apply leb_trans with x; [apply IH; set_solver | exact E].
    + assert (E' : String.leb z x = true)
        by (destruct (String.leb_total x z); congruence).
      apply elem_of_cons in Hy as [-> | Hy].
      * apply leb_trans with z; [apply IH; set_solver | exact E'].
      * apply IH. exact Hy.
Qed.

(** *** In-degree counts and ready nodes *)

Lemma mem_spec x l : mem x l = true <-> x ∈ l.
Proof.
  unfold mem. rewrite existsb_exists. split.
  - intros (y & Hy & E). apply String.eqb_eq in E as ->. apply list_elem_of_In, Hy.
  - intros H. exists x. split; [apply list_elem_of_In, H | apply String.eqb_refl].
Qed.

Lemma in_degree_zero edges emitted v :
  in_degree edges emitted v = 0%nat <->
  forall u, (u, v) ∈ edges -> u ∈ emitted.
Proof.
  unfold in_degree. induction edges as [|[a b] edges IH]; simpl.
  - split; [intros _ u Hu; inversion Hu | reflexivity].
  - destruct (String.eqb_spec b v) as [->|Hb]; simpl.
    + destruct (mem a emitted) eqn:Ha; simpl.
      * rewrite IH. apply mem_spec in Ha. split.
        -- intros H u Hu. apply elem_of_cons in Hu as [Hu | Hu]; [congruence | auto].
        -- intros H u Hu. apply H. apply elem_of_cons. right. exact Hu.
      * split; [discriminate|]. intros H.
        assert (a ∈ emitted) as Hin by (apply H; apply elem_of_cons; left; reflexivity).
        apply mem_spec in Hin. congruence.
    + rewrite IH. split.
      * intros H u Hu. apply elem_of_cons in Hu as [Hu | Hu]; [congruence | auto].
      * intros H u Hu. apply H. apply elem_of_cons. right. exact Hu.
Qed.

Lemma elem_of_ready edges emitted remaining v :
  v ∈ ready edges emitted remaining <->
  v ∈ remaining /\ forall u, (u, v) ∈ edges -> u ∈ emitted.
Proof.
  unfold ready. rewrite list_elem_of_In, filter_In, <- list_elem_of_In.
  rewrite Nat.eqb_eq, in_degree_zero. reflexivity.
Qed.


(** *** Acyclic graphs have a node without pending predecessors *)

Lemma tc_flip (R : relation string) x y : tc (flip R) x y -> tc R y x.
Proof.
  induction 1 as [x y H | x y z H _ IH]; [apply tc_once, H|].
  eapply tc_r; [exact IH | exact H].
Qed.

Lemma acyclic_Acc edges x : ~ has_cycle edges -> Acc (edge_rel edges) x.
Proof.
  intros Hacyc.
  change (sn (flip (edge_rel edges)) x). apply tc_finite_sn.
  - intros v Hv. apply Hacyc. exists v. apply tc_flip, Hv.
  - exists (List.map fst edges). intros y Hy.
    assert (exists z, edge_rel edges y z) as [z Hz].
    { induction Hy as [x y H | x y z _ _ IH]; [exists x; exact H | exact IH]. }
    apply list_elem_of_fmap. exists (y, z). split; [reflexivity | exact Hz].
Qed.

Lemma exists_source (edges : list (string * string)) (remaining : list string) x :
  ~ has_cycle edges -> x ∈ remaining ->
  exists v, v ∈ remaining /\ forall u, (u, v) ∈ edges -> u ∉ remaining.
Proof.
  intros Hacyc. induction (acyclic_Acc edges x Hacyc) as [x _ IH]. intros Hx.
  destruct (List.find (fun e => String.eqb (snd e) x && mem (fst e) remaining) edges)
    as [[u x']|] eqn:E.
  - apply find_some in E as [Hin E]. simpl in E.
    apply andb_true_iff in E as [Ex Hu].
    apply String.eqb_eq in Ex as ->. apply mem_spec in Hu.
    apply (IH u); [apply list_elem_of_In, Hin | exact Hu].
  - exists x. split; [exact Hx|]. intros u Hu Hrem.
    apply list_elem_of_In in Hu.
    pose proof (find_none _ _ E _ Hu) as F. simpl in F.
    rewrite String.eqb_refl in F. simpl in F.
    apply mem_spec in Hrem. congruence.
Qed.

Lemma ready_nonempty (edges : list (string * string)) (emitted remaining : list string) x :
  ~ has_cycle edges -> x ∈ remaining ->
  (forall u v, (u, v) ∈ edges -> v ∈ remaining -> u ∈ emitted \/ u ∈ remaining) ->
  ready edges emitted remaining <> [].
Proof.
  intros Hacyc Hx Hclosed.
  destruct (exists_source edges remaining x Hacyc Hx) as (v & Hv & Hsrc).
  assert (v ∈ ready edges emitted remaining) as Hr.
  { apply elem_of_ready. split; [exact Hv|]. intros u Hu.
    destruct (Hclosed u v Hu Hv) as [?|?]; [assumption | exfalso; eapply Hsrc; eauto]. }
  intros E. rewrite E in Hr. inversion Hr.
Qed.

(** *** Removing the chosen node *)

Lemma elem_of_remove_id v (l : list string) x : x ∈ remove_id v l <-> x ∈ l /\ x <> v.
Proof.
  unfold remove_id. rewrite list_elem_of_In, filter_In, <- list_elem_of_In.
  destruct (String.eqb_spec x v); simpl; intuition congruence.
Qed.

Lemma remove_id_Permutation v (l : list string) :
  NoDup l -> v ∈ l -> v :: remove_id v l ≡ₚ l.
Proof.
  intros Hnd Hv. apply NoDup_Permutation.
  - constructor; [|unfold remove_id; apply NoDup_ListNoDup, List.NoDup_filter, NoDup_ListNoDup, Hnd].
    rewrite elem_of_remove_id. tauto.
  - exact Hnd.
  - intros x. rewrite elem_of_cons, elem_of_remove_id.
    destruct (decide (x = v)) as [->|]; tauto.
Qed.


(** *** Kahn's loop *)

Lemma kahn_correct (edges : list (string * string)) (rounds : nat) :
  ~ has_cycle edges ->
  forall emitted remaining : list string,
  (length remaining <= rounds)%nat ->
  NoDup remaining ->
  (forall u v, (u, v) ∈ edges -> v ∈ remaining -> u ∈ emitted \/ u ∈ remaining) ->
  exists order,
    kahn edges rounds emitted remaining = inr order
    /\ order ≡ₚ remaining
    /\ well_ordered edges emitted order.
Proof.
  intros Hacyc. induction rounds as [|rounds IH]; intros emitted remaining Hlen Hnd Hclosed.
  - destruct remaining as [|x remaining]; [|simpl in Hlen; lia].
    exists []. repeat split; [reflexivity| |]; destruct pre; discriminate.
  - destruct remaining as [|x remaining].
    { exists []. repeat split; [reflexivity| |]; destruct pre; discriminate. }
    set (rem := x :: remaining) in *.
    assert (Hx : x ∈ rem) by (apply elem_of_cons; left; reflexivity).
    pose proof (ready_nonempty edges emitted rem x Hacyc Hx Hclosed) as Hready.
    unfold kahn; fold kahn. subst rem.
    destruct (ready edges emitted (x :: remaining)) as [|r rs] eqn:Er; [congruence|].
    set (rem := x :: remaining) in *.
    set (v := least r rs).
    assert (Hv : v ∈ ready edges emitted rem) by (rewrite Er; apply least_in).
    apply elem_of_ready in Hv as [Hvrem Hvpred].
    pose proof (remove_id_Permutation v rem Hnd Hvrem) as Hperm.
    destruct (IH (v :: emitted) (remove_id v rem)) as (order & Hk & Ho & Hw).
    + apply Permutation_length in Hperm.
      change (length (v :: remove_id v rem)) with (S (length (remove_id v rem))) in Hperm.
      lia.
    + unfold remove_id. apply NoDup_ListNoDup, List.NoDup_filter, NoDup_ListNoDup, Hnd.
    + intros u w Huw Hw. apply elem_of_remove_id in Hw as [Hw _].
      destruct (decide (u = v)) as [->|Hne]; [left; apply elem_of_cons; auto|].
      destruct (Hclosed u w Huw Hw) as [?|?].
      * left. apply elem_of_cons. auto.
      * right. apply elem_of_remove_id. auto.
    + rewrite Hk. exists (v :: order). split; [reflexivity|]. split.
      { rewrite <- Hperm. constructor. exact Ho. }
      intros pre u post Hsplit. destruct pre as [|p pre]; simpl in Hsplit.
      * injection Hsplit as <- <-. split.
        -- intros w Hwv. left. apply Hvpred, Hwv.
        -- intros v' Hv' Hpred. apply least_le. rewrite <- Er.
           apply elem_of_ready. split.
           ++ rewrite Ho in Hv'. apply elem_of_remove_id in Hv' as [? _]. assumption.
           ++ intros w Hwv. destruct (Hpred w Hwv) as [?|Hnil]; [assumption | inversion Hnil].
      * injection Hsplit as <- ->.
        destruct (Hw pre u post eq_refl) as [Hpreds Htie]. split.
        -- intros w Hw'. destruct (Hpreds w Hw') as [Hin | Hin].
           ++ apply elem_of_cons in Hin as [-> | Hin];
                [right; apply elem_of_cons; auto | left; assumption].
           ++ right. apply elem_of_cons. auto.
        -- intros v' Hv' Hpred. apply Htie; [exact Hv'|].
           intros w Hw'. destruct (Hpred w Hw') as [Hin | Hin].
           ++ left. apply elem_of_cons. auto.
           ++ apply elem_of_cons in Hin as [-> | Hin];
                [left; apply elem_of_cons; auto | right; assumption].
Qed.


Lemma acyclic_by_rank (edges : list (string * string)) (rank : string -> nat) :
  (forall u v, (u, v) ∈ edges -> (rank u < rank v)%nat) -> ~ has_cycle edges.
Proof.
  intros Hrank [v Hv].
  assert (H : forall x y, tc (edge_rel edges) x y -> (rank x < rank y)%nat).
  { induction 1 as [x y H | x y z H _ IH]; [apply Hrank, H|].
    pose proof (Hrank x y H). lia. }
  specialize (H v v Hv). lia.
Qed.

(** C8: for a graph with unique node ids, no dangling edge and no
    cycle, compilation succeeds; the plan lists every node exactly
    once; the source of every edge comes before its target; each node
    has the least id among the nodes whose predecessors had all been
    output when it was chosen; and compiling the same graph again
    gives the same plan. *)
Theorem compile_dag_order (g : graph) (Hdag : is_dag g) :
  exists plan,
    compile g = inr plan
    /\ plan_order plan ≡ₚ g_nodes g
    /\ NoDup (plan_order plan)
    /\ (forall u v, (u, v) ∈ g_edges g -> precedes (plan_order plan) u v)
    /\ (forall pre u post, plan_order plan = (pre ++ u :: post)%list ->
        forall v, v ∈ post ->
          (forall w, (w, v) ∈ g_edges g -> w ∈ pre) -> String.leb u v = true)
    /\ (forall r, compile g = r -> r = inr plan).
Proof.
  destruct Hdag as (Hnd & Hends & Hacyc).
  destruct (kahn_correct (g_edges g) (length (g_nodes g)) Hacyc [] (g_nodes g))
    as (order & Hk & Hperm & Hw).
  - lia.
  - exact Hnd.
  - intros u v Huv _. right. apply (Hends u v Huv).
  - unfold compile. rewrite Hk. eexists. split; [reflexivity|]. simpl.
    split; [exact Hperm|]. split; [rewrite Hperm; exact Hnd|]. split; [|split].
    + intros u v Huv.
      assert (v ∈ order) as Hv by (rewrite Hperm; apply (Hends u v Huv)).
      apply list_elem_of_split in Hv as (pre & post & ->).
      destruct (Hw pre v post eq_refl) as [Hpreds _].
      destruct (Hpreds u Huv) as [Hnil | Hu]; [inversion Hnil|].
      apply list_elem_of_split in Hu as (l1 & l2 & ->).
      exists l1, l2, post. rewrite <- app_assoc. reflexivity.
    + intros pre u post Hsplit v Hv Hpred.
      destruct (Hw pre u post Hsplit) as [_ Htie].
      apply Htie; [exact Hv|]. intros w Hwv. right. apply Hpred, Hwv.
    + intros r <-. reflexivity.
Qed.

Lemma diamond_is_dag : is_dag diamond.
Proof.
  split; [|split].
  - apply NoDup_ListNoDup. repeat constructor; simpl; intuition discriminate.
  - intros u v H. simpl in H.
    repeat (apply elem_of_cons in H as [[= -> ->] | H]);
      [| | | inversion H]; split; apply list_elem_of_In; simpl; tauto.
  - apply (acyclic_by_rank _ (position_in ["a"; "b"; "c"; "d"])).
    intros u v H. simpl in H.
    repeat (apply elem_of_cons in H as [[= -> ->] | H]);
      [| | | inversion H]; vm_compute; lia.
Qed.

Lemma compile_dag_order_witness :
  exists plan,
    compile diamond = inr plan
    /\ plan_order plan ≡ₚ g_nodes diamond
    /\ NoDup (plan_order plan)
    /\ (forall u v, (u, v) ∈ g_edges diamond -> precedes (plan_order plan) u v)
    /\ (forall pre u post, plan_order plan = (pre ++ u :: post)%list ->
        forall v, v ∈ post ->
          (forall w, (w, v) ∈ g_edges diamond -> w ∈ pre) -> String.leb u v = true)
    /\ (forall r, compile diamond = r -> r = inr plan).
Proof. apply (compile_dag_order diamond). exact diamond_is_dag. Defined.

Example compile_diamond :
  sum_map id plan_order (compile diamond) = inr ["a"; "b"; "c"; "d"].
Proof. vm_compute. reflexivity. Qed.

Example compile_cycle :
  compile {| g_nodes := ["u1"; "k1"; "l1"; "o1"];
             g_edges := [("u1", "k1"); ("k1", "l1"); ("l1", "k1"); ("l1", "o1")] |}
  = inl cycle_detected.
Proof. vm_compute. reflexivity. Qed.

End Compiler.

(** * Further properties *)

(** ** The builder *)

(** ** Node updates *)

(** X1: a configuration update keeps the number and order of the
    nodes and their ids, types and positions, leaves every node with
    another id exactly as it was, and touches neither the edges, the
    workflow name nor the selection. *)
Theorem handleNodeUpdate_frame (i : string) (newData : obj) (st : builder) :
  List.map node_id (nodes (handleNodeUpdate i newData st)) = List.map node_id (nodes st)
  /\ List.map node_type (nodes (handleNodeUpdate i newData st))
     = List.map node_type (nodes st)
  /\ List.map node_position (nodes (handleNodeUpdate i newData st))
     = List.map node_position (nodes st)
  /\ List.filter (fun n => negb (String.eqb (node_id n) i))
       (nodes (handleNodeUpdate i newData st))
     = List.filter (fun n => negb (String.eqb (node_id n) i)) (nodes st)
  /\ edges (handleNodeUpdate i newData st) = edges st
  /\ workflowName (handleNodeUpdate i newData st) = workflowName st
  /\ selectedNode (handleNodeUpdate i newData st) = selectedNode st.
Proof.
  unfold handleNodeUpdate. simpl. repeat split.
  - rewrite List.map_map. apply List.map_ext. intros n.
    destruct (String.eqb (node_id n) i); reflexivity.
  - rewrite List.map_map. apply List.map_ext. intros n.
    destruct (String.eqb (node_id n) i); reflexivity.
  - rewrite List.map_map. apply List.map_ext. intros n.
    destruct (String.eqb (node_id n) i); reflexivity.
  - induction (nodes st) as [|n ns IH]; simpl; [reflexivity|].
    destruct (String.eqb (node_id n) i) eqn:E; simpl; rewrite E; simpl; rewrite IH;
      reflexivity.
Qed.

(** X2: in a node that received an update, every key of the update
    carries the new value and every other key keeps the value some node
    with that id had before. *)
Theorem handleNodeUpdate_merges (i k : string) (newData : obj) (st : builder) (n' : node)
    (Hin : n' ∈ nodes (handleNodeUpdate i newData st))
    (Hid : node_id n' = i) :
  (forall v, newData !! k = Some v -> get (node_data n') k = v)
  /\ (newData !! k = None ->
      exists n, n ∈ nodes st /\ node_id n = i /\ get (node_data n') k = get (node_data n) k).
Proof.
  split.
  - intros v Hk. eapply handleNodeUpdate_get; eassumption.
  - intros Hk.
    destruct (handleNodeUpdate_nodes _ _ _ _ Hin) as (n & Hn & Hidn & Hupd & _).
    exists n. split; [exact Hn|]. split; [congruence|].
    rewrite Hupd by congruence. unfold get, spread, spread_opt.
    rewrite lookup_union_r by exact Hk.
    destruct (node_data n); simpl; [reflexivity | rewrite lookup_empty; reflexivity].
Qed.

Lemma handleNodeUpdate_merges_witness :
  (forall v, ({[ "topK" := JNum 7 ]} : obj) !! "topK" = Some v ->
             get (node_data kb_node_after_7) "topK" = v)
  /\ (({[ "topK" := JNum 7 ]} : obj) !! "topK" = None ->
      exists n, n ∈ nodes kb_canvas /\ node_id n = "k1"
                /\ get (node_data kb_node_after_7) "topK" = get (node_data n) "topK").
Proof.
  apply (handleNodeUpdate_merges "k1" "topK" {[ "topK" := JNum 7 ]} kb_canvas
           kb_node_after_7).
  - apply list_elem_of_In. vm_compute. left. reflexivity.
  - reflexivity.
Defined.

(** X3: two updates of the same node amount to one update with the
    merged data, the later values winning; repeating an update changes
    nothing more. *)
Theorem handleNodeUpdate_compose (i : string) (d1 d2 : obj) (st : builder) :
  handleNodeUpdate i d2 (handleNodeUpdate i d1 st) = handleNodeUpdate i (spread d1 d2) st
  /\ handleNodeUpdate i d1 (handleNodeUpdate i d1 st) = handleNodeUpdate i d1 st.
Proof.
  assert (H : forall a b,
    handleNodeUpdate i b (handleNodeUpdate i a st) = handleNodeUpdate i (spread a b) st).
  { intros a b. unfold handleNodeUpdate. simpl. f_equal.
    rewrite List.map_map. apply List.map_ext. intros n.
    destruct (String.eqb (node_id n) i) eqn:E; simpl; rewrite E; [|reflexivity].
    unfold spread. simpl. rewrite (assoc_L (∪)). reflexivity. }
  split; [apply H|]. rewrite H. unfold spread. rewrite (idemp (∪)). reflexivity.
Qed.

Lemma is_kind_after_update kind (n : node) (newData : obj) :
  newData !! "type" = None ->
  is_kind kind {| node_id := node_id n; node_type := node_type n;
                  node_position := node_position n;
                  node_data := Some (spread (spread_opt (node_data n)) newData) |}
  = is_kind kind n.
Proof.
  intros H. unfold is_kind, get, spread, spread_opt. simpl.
  rewrite lookup_union_r by exact H.
  destruct (node_data n); simpl; [reflexivity | rewrite lookup_empty; reflexivity].
Qed.

(** X4: an update that does not carry a [type] key changes neither the
    verdict of the checks made before saving nor the number of nodes of
    any kind. *)
Theorem handleNodeUpdate_keeps_verdict (i : string) (newData : obj) (st : builder)
    (Htype : newData !! "type" = None) :
  validate (handleNodeUpdate i newData st) = validate st
  /\ forall kind, count_kind kind (nodes (handleNodeUpdate i newData st))
                  = count_kind kind (nodes st).
Proof.
  assert (Hk : forall kind,
    List.map (is_kind kind) (nodes (handleNodeUpdate i newData st))
    = List.map (is_kind kind) (nodes st)).
  { intros kind. unfold handleNodeUpdate. simpl. rewrite List.map_map.
    apply List.map_ext. intros n.
    destruct (String.eqb (node_id n) i); [apply is_kind_after_update, Htype | reflexivity]. }
  assert (He : forall kind (l1 l2 : list node),
    List.map (is_kind kind) l1 = List.map (is_kind kind) l2 ->
    existsb (is_kind kind) l1 = existsb (is_kind kind) l2
    /\ count_kind kind l1 = count_kind kind l2).
  { intros kind l1. unfold count_kind.
    induction l1 as [|a l1 IH]; intros [|b l2] E; simpl in *; try discriminate; [auto|].
    injection E as E1 E2. destruct (IH l2 E2) as [IH1 IH2].
    rewrite E1, IH1. destruct (is_kind kind b); simpl; auto. }
  split.
  - unfold validate, hasUserQuery, hasLLM, hasOutput.
    rewrite (proj1 (He _ _ _ (Hk "userQuery"))), (proj1 (He _ _ _ (Hk "llmEngine"))),
      (proj1 (He _ _ _ (Hk "output"))). reflexivity.
  - intros kind. apply (He _ _ _ (Hk kind)).
Qed.

Lemma handleNodeUpdate_keeps_verdict_witness :
  validate (handleNodeUpdate "k1" {[ "topK" := JNum 7 ]} linear_canvas)
  = validate linear_canvas
  /\ forall kind,
       count_kind kind (nodes (handleNodeUpdate "k1" {[ "topK" := JNum 7 ]} linear_canvas))
       = count_kind kind (nodes linear_canvas).
Proof.
  apply (handleNodeUpdate_keeps_verdict "k1" {[ "topK" := JNum 7 ]} linear_canvas).
  reflexivity.
Defined.

(** ** Dropping and deleting nodes *)

Lemma createNode_data_type id type pos cb :
  get (node_data (createNode id type pos cb)) "type" = JStr type.
Proof.
  unfold createNode. generalize (js_or (table_get nodeLabels type) (JStr type)).
  intros lbl. simpl.
  destruct (String.eqb type "knowledgeBase"); [|destruct (String.eqb type "llmEngine")];
    vm_compute; reflexivity.
Qed.

(** Whatever [node.type] the factory stored, the node counts as the
    kind named by the dragged type: [data.type] always holds it. *)
Lemma is_kind_created kind type (n : node) :
  node_type n = default (JStr type) (Object_prototype type) ->
  get (node_data n) "type" = JStr type ->
  is_kind kind n = String.eqb type kind.
Proof.
  intros Ht Hd. unfold is_kind. rewrite Hd, Ht. simpl.
  destruct (Object_prototype type) as [v|] eqn:Ev; simpl.
  - apply Object_prototype_value in Ev as (_ & -> & _). apply orb_false_r.
  - apply orb_diag.
Qed.

Lemma createNode_id id type pos cb : node_id (createNode id type pos cb) = id.
Proof. reflexivity. Qed.

Lemma onDrop_new_node (id type : string) (pos : position) (st : builder) :
  type <> "" ->
  exists n,
    nodes (onDrop id type pos st) = (nodes st ++ [n])%list
    /\ node_type n = default (JStr type) (Object_prototype type)
    /\ get (node_data n) "type" = JStr type.
Proof.
  intros Htype.
  pose proof (createNode_data_type id type pos None) as Hd.
  pose proof (createNode_type id type pos None) as Ht.
  destruct (createNode_data id type pos None) as [d Hdata].
  unfold onDrop. destruct (String.eqb_spec type "") as [E|_]; [contradiction|].
  rewrite Hdata in *. rewrite Ht.
  eexists. split; [reflexivity|]. simpl. split; [reflexivity|].
  simpl in Hd. rewrite lookup_insert_ne by discriminate. exact Hd.
Qed.

(** X5: dropping a component of a non-empty type appends exactly one
    node after the existing ones: it has the generated id, the drop
    position, the dropped type in [data.type], the factory's
    configuration, and an update callback aimed at itself; its [type]
    is the dropped type too, unless that names a property every object
    inherits, which is then stored in its place; edges and name are
    untouched. *)
Theorem onDrop_appends (id type : string) (pos : position) (st : builder)
    (Htype : type <> "") :
  exists n,
    nodes (onDrop id type pos st) = (nodes st ++ [n])%list
    /\ node_id n = id
    /\ node_type n = default (JStr type) (Object_prototype type)
    /\ node_position n = pos
    /\ get (node_data n) "type" = JStr type
    /\ get (node_data n) "onUpdate" = JFun (CbUpdateNode id)
    /\ config n = config (createNode id type pos None)
    /\ edges (onDrop id type pos st) = edges st
    /\ workflowName (onDrop id type pos st) = workflowName st.
Proof.
  pose proof (createNode_data_type id type pos None) as Hd.
  pose proof (createNode_type id type pos None) as Ht.
  destruct (createNode_data id type pos None) as [d Hdata].
  unfold onDrop. destruct (String.eqb_spec type "") as [E|_]; [contradiction|].
  change (node_id (createNode id type pos None)) with id.
  change (node_position (createNode id type pos None)) with pos.
  unfold config. rewrite Hdata in *. rewrite Ht.
  eexists. split; [reflexivity|]. simpl.
  repeat split.
  - simpl in Hd. rewrite lookup_insert_ne by discriminate. exact Hd.
  - rewrite lookup_insert_eq. reflexivity.
  - apply delete_insert_eq.
Qed.

Lemma onDrop_appends_witness :
  exists n,
    nodes (onDrop "k1" "knowledgeBase" origin empty_canvas)
    = (nodes empty_canvas ++ [n])%list
    /\ node_id n = "k1"
    /\ node_type n = JStr "knowledgeBase"
    /\ node_position n = origin
    /\ get (node_data n) "type" = JStr "knowledgeBase"
    /\ get (node_data n) "onUpdate" = JFun (CbUpdateNode "k1")
    /\ config n = config (createNode "k1" "knowledgeBase" origin None)
    /\ edges (onDrop "k1" "knowledgeBase" origin empty_canvas) = edges empty_canvas
    /\ workflowName (onDrop "k1" "knowledgeBase" origin empty_canvas)
       = workflowName empty_canvas.
Proof.
  apply (onDrop_appends "k1" "knowledgeBase" origin empty_canvas). discriminate.
Defined.

Lemma count_kind_app kind (l1 l2 : list node) :
  count_kind kind (l1 ++ l2) = (count_kind kind l1 + count_kind kind l2)%nat.
Proof. unfold count_kind. rewrite List.filter_app, length_app. reflexivity. Qed.

(** X6: a drop raises the count of its own kind by one and leaves the
    counts of the other kinds alone; a drop with an empty type changes
    no count. *)
Theorem onDrop_counts (id type kind : string) (pos : position) (st : builder) :
  count_kind kind (nodes (onDrop id type pos st))
  = (count_kind kind (nodes st)
     + (if String.eqb type "" then 0 else if String.eqb type kind then 1 else 0))%nat.
Proof.
  destruct (String.eqb_spec type "") as [E|E].
  - unfold onDrop. subst type. simpl. lia.
  - destruct (onDrop_new_node id type pos st E) as (n & -> & Ht & Hd).
    rewrite count_kind_app. f_equal. unfold count_kind. simpl.
    rewrite (is_kind_created kind type n Ht Hd).
    destruct (String.eqb type kind); reflexivity.
Qed.

Lemma deleted_find_spec (deleted : list node) (id : string) :
  deleted_find deleted id = true <-> exists d, d ∈ deleted /\ node_id d = id.
Proof.
  unfold deleted_find. rewrite existsb_exists. split.
  - intros (d & Hd & E). exists d. split; [apply list_elem_of_In, Hd|].
    apply String.eqb_eq, E.
  - intros (d & Hd & E). exists d. split; [apply list_elem_of_In, Hd|].
    apply String.eqb_eq, E.
Qed.

(** X7: after a deletion the canvas holds exactly the former nodes
    whose id is not among the deleted ones; the selection survives
    exactly when the selected node's id is not among them; the handler
    leaves the edges as they are; deleting nothing changes nothing. *)
Theorem onNodesDelete_spec (deleted : list node) (st : builder) :
  let st' := onNodesDelete deleted st in
  (forall n, n ∈ nodes st' <->
             n ∈ nodes st /\ ~ exists d, d ∈ deleted /\ node_id d = node_id n)
  /\ (forall sel, selectedNode st' = Some sel <->
                  selectedNode st = Some sel
                  /\ ~ exists d, d ∈ deleted /\ node_id d = node_id sel)
  /\ edges st' = edges st
  /\ onNodesDelete [] st = st.
Proof.
  simpl. split; [|split; [|split]].
  - intros n. unfold onNodesDelete. simpl.
    rewrite list_elem_of_In, filter_In, <- list_elem_of_In, negb_true_iff.
    rewrite <- deleted_find_spec. destruct (deleted_find deleted (node_id n));
      intuition congruence.
  - intros sel. unfold onNodesDelete. simpl. rewrite <- deleted_find_spec.
    destruct (selectedNode st) as [s|]; [|intuition discriminate].
    destruct (deleted_find deleted (node_id s)) eqn:E.
    + split; [discriminate|]. intros [[= ->] H]. congruence.
    + split; [intros [= ->]; split; [reflexivity | congruence]|].
      intros [H _]. exact H.
  - reflexivity.
  - unfold onNodesDelete. simpl. destruct st as [ns es sel nm ds]. simpl. f_equal.
    + induction ns as [|n ns IH]; simpl; [reflexivity | rewrite IH; reflexivity].
    + destruct sel; reflexivity.
Qed.

(** ** JSON *)

Lemma json_idempotent (v v' : jsval) : json v = Some v' -> json v' = Some v'.
Proof.
  revert v'. induction v as [| | b | z | | s | f | items IH | props IH | negative]
    using jsval_nested_ind; intros v' H; simpl in H; try discriminate;
    try (injection H as <-; reflexivity).
  - injection H as <-. simpl. do 2 f_equal. rewrite List.map_map.
    induction IH as [|x l Hx _ IHl]; simpl; [reflexivity|]. rewrite IHl. f_equal.
    destruct (json x) as [x'|] eqn:E; simpl; [rewrite (Hx x' eq_refl)|]; reflexivity.
  - injection H as <-. simpl. do 2 f_equal.
    induction IH as [|[k x] l Hx _ IHl]; simpl; [reflexivity|]. simpl in Hx.
    destruct (json x) as [x'|] eqn:E; [|exact IHl].
    rewrite (Hx x' eq_refl). f_equal. exact IHl.
Qed.

Lemma json_field_idempotent v : json_field (json_field v) = json_field v.
Proof.
  unfold json_field. destruct (json v) as [v'|] eqn:E; simpl; [|reflexivity].
  rewrite (json_idempotent v v' E). reflexivity.
Qed.

Lemma json_obj_idempotent (m : obj) : json_obj (json_obj m) = json_obj m.
Proof.
  apply json_obj_stable_iff. intros k v Hk. unfold json_obj in Hk.
  rewrite lookup_omap in Hk. destruct (m !! k) as [x|]; simpl in Hk; [|discriminate].
  apply (json_idempotent x v Hk).
Qed.

Lemma json_no_function v v' : json v = Some v' ->
  (forall f, v' <> JFun f) /\ v' <> JUndefined /\ v' <> JNaN.
Proof.
  destruct v; simpl; intros H; try discriminate; injection H as <-;
    repeat split; try intros ?; discriminate.
Qed.

(** ** Saving *)

(** X8: every call of the save handler shows exactly one toast.  With
    a blank name it is the request to enter a name and nothing else
    happens.  A request is sent exactly when the checks pass, and then
    exactly one: PUT to the edited workflow's URL when editing, POST to
    the collection otherwise, carrying the serialized canvas.  The
    workflow is handed on to the chat exactly when the checks pass and
    the server accepted it. *)
Theorem handleSaveWorkflow_protocol (editingWorkflow : option workflow)
    (st : builder) (reply : save_reply) :
  let out := handleSaveWorkflow editingWorkflow st reply in
  (trim (workflowName st) = "" -> out = [ToastError "Please enter a workflow name"])
  /\ length (List.filter is_toast out) = 1%nat
  /\ List.filter is_fetch out
     = match validate st with
       | Some _ => []
       | None =>
           [Fetch
              match editingWorkflow with
              | Some w => "http://localhost:8000/api/workflows/" ++ wf_id w
              | None => "http://localhost:8000/api/workflows/"
              end
              match editingWorkflow with Some _ => "PUT" | None => "POST" end
              (stringify (serialize st))]
       end
  /\ (forall w, OnWorkflowReady w ∈ out <-> validate st = None /\ reply = SaveOk w).
Proof.
  simpl. unfold handleSaveWorkflow. split.
  - intros Hname. unfold validate. rewrite Hname. reflexivity.
  - destruct (validate st) as [msg|] eqn:Hv.
    + split; [reflexivity|]. split; [reflexivity|]. intros w. split.
      * intros H. apply list_elem_of_singleton in H. discriminate.
      * intros [H _]. discriminate.
    + destruct reply as [w'|detail|message]; (split; [reflexivity|]);
        (split; [reflexivity|]); intros w; rewrite !elem_of_cons; split.
      * intros [H|[H|[H|H]]]; try discriminate; [|inversion H].
        injection H as ->. auto.
      * intros [_ [= ->]]. auto.
      * intros [H|[H|H]]; try discriminate. inversion H.
      * intros [_ H]. discriminate.
      * intros [H|[H|H]]; try discriminate. inversion H.
      * intros [_ H]. discriminate.
Qed.

Lemma get_stringified (n0 : node) (k : string) :
  get (node_data (stringify_node (serialize_node n0))) k
  = json_field (get (node_data n0) k).
Proof.
  unfold stringify_node, serialize_node, get, json_field, json_obj. simpl.
  destruct (node_data n0) as [d|]; simpl; [|reflexivity].
  rewrite lookup_omap. destruct (d !! k) as [x|]; simpl; reflexivity.
Qed.

(** X9: node by node, the body of the save request keeps id and
    position, carries no function under any key of [data] (the update
    callbacks are left out), holds only values that JSON reproduces,
    and keeps every value of the canvas that JSON reproduces. *)
Theorem saved_body_is_plain_json (st : builder) :
  Forall2
    (fun n0 n =>
       node_id n = node_id n0
       /\ node_position n = node_position n0
       /\ json_field (node_type n) = node_type n
       /\ (forall k, json_field (get (node_data n) k) = get (node_data n) k)
       /\ (forall k f, get (node_data n) k <> JFun f)
       /\ (forall k v, get (node_data n0) k = v -> json v = Some v ->
             get (node_data n) k = v))
    (nodes st) (wd_nodes (stringify (serialize st))).
Proof.
  unfold stringify, serialize. simpl. rewrite List.map_map.
  induction (nodes st) as [|n0 ns IH]; simpl; constructor; [|exact IH].
  split; [reflexivity|]. split; [reflexivity|].
  split; [apply json_field_idempotent|].
  split; [intros k; rewrite get_stringified; apply json_field_idempotent|].
  split.
  - intros k f. rewrite get_stringified. unfold json_field.
    destruct (json (get (node_data n0) k)) as [v|] eqn:E; simpl; [|discriminate].
    apply (json_no_function _ _ E).
  - intros k v <- Hv. rewrite get_stringified. unfold json_field. rewrite Hv. reflexivity.
Qed.

Lemma truthy_json_field_false v : truthy v = false -> truthy (json_field v) = false.
Proof. destruct v; simpl; intros H; try reflexivity; try exact H; discriminate. Qed.

Lemma json_obj_lookup_type (c : obj) :
  default JUndefined (json_obj c !! "type")
  = json_field (default JUndefined (c !! "type")).
Proof.
  unfold json_obj, json_field. rewrite lookup_omap.
  destruct (c !! "type"); reflexivity.
Qed.

Lemma reopened_actual_type (n : node) :
  json_field (actual_type (reopened_node n)) = json_field (actual_type n).
Proof.
  rewrite (actual_type_config (reopened_node n)), reopened_node_config,
    reopened_node_type, json_obj_lookup_type, (actual_type_config n).
  unfold js_or.
  destruct (truthy (default JUndefined (config n !! "type"))) eqn:T.
  - destruct (truthy (json_field (default JUndefined (config n !! "type"))));
      apply json_field_idempotent.
  - rewrite (truthy_json_field_false _ T). apply json_field_idempotent.
Qed.

Lemma reopened_node_idempotent (n : node) : reopened_node (reopened_node n) = reopened_node n.
Proof.
  pose proof (reopened_actual_type n) as Ht.
  unfold reopened_node at 1 3. unfold processNode, stringify_node, serialize_node.
  cbn [node_id node_type node_position node_data]. rewrite Ht. f_equal.
  unfold reopened_node, processNode, stringify_node, serialize_node.
  cbn [node_id node_type node_position node_data fmap option_fmap option_map
       spread_opt default].
  f_equal. unfold json_obj. rewrite omap_insert_None by reflexivity.
  unfold id, spread_opt. rewrite insert_delete_eq. f_equal.
  destruct (node_data n) as [d|]; simpl.
  - apply json_obj_idempotent.
  - apply omap_empty.
Qed.

Lemma builder_eq (a b : builder) :
  nodes a = nodes b -> edges a = edges b -> selectedNode a = selectedNode b ->
  workflowName a = workflowName b -> workflowDescription a = workflowDescription b ->
  a = b.
Proof. destruct a, b; simpl; congruence. Qed.

Lemma save_and_reopen_description id st :
  workflowDescription (save_and_reopen id st) = workflowDescription st.
Proof.
  unfold save_and_reopen, loadEditingWorkflow, stored, str_or. simpl.
  destruct (String.eqb_spec (workflowDescription st) ""); congruence.
Qed.

(** X10: saving and reopening is idempotent on every canvas: doing it
    to a reopened canvas gives that canvas back. *)
Theorem save_and_reopen_idempotent (id1 id2 : string) (st : builder) :
  save_and_reopen id2 (save_and_reopen id1 st) = save_and_reopen id1 st.
Proof.
  apply builder_eq.
  - rewrite !save_and_reopen_nodes, List.map_map. apply List.map_ext.
    intros n. apply reopened_node_idempotent.
  - rewrite !save_and_reopen_edges, List.map_map. reflexivity.
  - reflexivity.
  - rewrite !save_and_reopen_name. reflexivity.
  - rewrite !save_and_reopen_description. reflexivity.
Qed.

(** X11: opening a stored workflow keeps the node ids and the edges'
    id, source and target; gives every node an update callback aimed at
    the node itself; shows every edge as an animated smoothstep edge
    without handles; and with no workflow to edit the canvas is empty
    and unnamed. *)
Theorem loadEditingWorkflow_wires (w : workflow) (st : builder) :
  let st' := loadEditingWorkflow (Some w) st in
  List.map node_id (nodes st') = List.map node_id (default [] (wf_nodes w))
  /\ Forall (fun n => get (node_data n) "onUpdate" = JFun (CbUpdateNode (node_id n)))
       (nodes st')
  /\ (forall n newData, n ∈ nodes st' ->
        invoke (get (node_data n) "onUpdate") newData st'
        = handleNodeUpdate (node_id n) newData st')
  /\ List.map serialize_edge (edges st') = default [] (wf_edges w)
  /\ Forall (fun e => edge_sourceHandle e = JUndefined /\ edge_targetHandle e = JUndefined
                      /\ edge_type e = JStr "smoothstep" /\ edge_animated e = JBool true)
       (edges st')
  /\ nodes (loadEditingWorkflow None st) = []
  /\ edges (loadEditingWorkflow None st) = []
  /\ workflowName (loadEditingWorkflow None st) = "".
Proof.
  simpl.
  assert (Hcb : Forall (fun n => get (node_data n) "onUpdate"
                                 = JFun (CbUpdateNode (node_id n)))
                  (default [] (List.map processNode <$> wf_nodes w))).
  { destruct (wf_nodes w) as [ns|]; simpl; [|constructor].
    apply List.Forall_map, Forall_forall. intros n _. unfold processNode, get. simpl.
    rewrite lookup_insert_eq. reflexivity. }
  split; [|split; [exact Hcb|split; [|split; [|split]]]].
  - destruct (wf_nodes w) as [ns|]; simpl; [|reflexivity].
    rewrite List.map_map. reflexivity.
  - intros n newData Hn. rewrite Forall_forall in Hcb. rewrite (Hcb n Hn). reflexivity.
  - destruct (wf_edges w) as [es|]; simpl; [|reflexivity].
    rewrite List.map_map. rewrite <- (List.map_id es) at 2. apply List.map_ext.
    intros [i s t]. reflexivity.
  - destruct (wf_edges w) as [es|]; simpl; [|constructor].
    apply List.Forall_map, Forall_forall. intros e _. repeat split.
  - repeat split.
Qed.




(** ** trim *)

Lemma rev_app_list (s1 s2 : string) :
  list_ascii_of_string (String.rev_app s1 s2)
  = (List.rev (list_ascii_of_string s1) ++ list_ascii_of_string s2)%list.
Proof.
  revert s2. induction s1 as [|c s1 IH]; intros s2; simpl; [reflexivity|].
  rewrite IH. simpl. rewrite <- app_assoc. reflexivity.
Qed.

Lemma rev_list (s : string) :
  list_ascii_of_string (String.rev s) = List.rev (list_ascii_of_string s).
Proof. unfold String.rev. rewrite rev_app_list. simpl. apply app_nil_r. Qed.

Lemma trimStart_list (s : string) :
  list_ascii_of_string (trimStart s) = drop_ws (list_ascii_of_string s).
Proof.
  induction s as [|c s IH]; simpl; [reflexivity|].
  destruct (is_white_space c); [exact IH | reflexivity].
Qed.

Lemma trimEnd_list (s : string) :
  list_ascii_of_string (trimEnd s)
  = List.rev (drop_ws (List.rev (list_ascii_of_string s))).
Proof. unfold trimEnd. rewrite rev_list, trimStart_list, rev_list. reflexivity. Qed.

Lemma drop_ws_split (l : list ascii) :
  exists p, l = (p ++ drop_ws l)%list /\ forallb is_white_space p = true.
Proof.
  induction l as [|c l (p & Hp & Hws)]; simpl; [exists []; auto|].
  destruct (is_white_space c) eqn:E; [|exists []; auto].
  exists (c :: p). simpl. rewrite E, Hws. split; [f_equal; exact Hp | reflexivity].
Qed.

Lemma drop_ws_head (l : list ascii) :
  match drop_ws l with
  | [] => True
  | c :: _ => is_white_space c = false
  end.
Proof.
  induction l as [|c l IH]; simpl; [exact I|].
  destruct (is_white_space c) eqn:E; [exact IH | exact E].
Qed.

Lemma drop_ws_fixed (l : list ascii) :
  match l with [] => True | c :: _ => is_white_space c = false end -> drop_ws l = l.
Proof. destruct l as [|c l]; simpl; [reflexivity|]. intros ->. reflexivity. Qed.

Lemma list_ascii_inj (s t : string) :
  list_ascii_of_string s = list_ascii_of_string t -> s = t.
Proof.
  intros H. rewrite <- (string_of_list_ascii_of_string s),
    <- (string_of_list_ascii_of_string t), H. reflexivity.
Qed.

Lemma list_ascii_app (s t : string) :
  list_ascii_of_string (s ++ t) = (list_ascii_of_string s ++ list_ascii_of_string t)%list.
Proof. induction s as [|c s IH]; simpl; [reflexivity | rewrite IH; reflexivity]. Qed.

(** The shape of [trim s] as a list of code units. *)
Lemma trim_list (s : string) :
  exists p q,
    list_ascii_of_string s = (p ++ list_ascii_of_string (trim s) ++ q)%list
    /\ forallb is_white_space p = true
    /\ forallb is_white_space q = true
    /\ match list_ascii_of_string (trim s) with
       | [] => True
       | c :: _ => is_white_space c = false
       end
    /\ match List.rev (list_ascii_of_string (trim s)) with
       | [] => True
       | c :: _ => is_white_space c = false
       end.
Proof.
  unfold trim. rewrite trimEnd_list, trimStart_list.
  set (l := list_ascii_of_string s).
  destruct (drop_ws_split l) as (p & Hp & Hpws).
  set (m := drop_ws l) in *.
  destruct (drop_ws_split (List.rev m)) as (q & Hq & Hqws).
  set (m' := drop_ws (List.rev m)) in *.
  assert (Hm : m = (List.rev m' ++ List.rev q)%list).
  { rewrite <- List.rev_app_distr, <- Hq, List.rev_involutive. reflexivity. }
  exists p, (List.rev q). split; [rewrite <- Hm; exact Hp|]. split; [exact Hpws|].
  split.
  { rewrite forallb_forall in *. intros c Hc. apply Hqws, List.in_rev, Hc. }
  split.
  - pose proof (drop_ws_head l) as Hh. fold m in Hh. rewrite Hm in Hh.
    destruct (List.rev m') as [|c r]; [exact I | exact Hh].
  - rewrite List.rev_involutive. apply drop_ws_head.
Qed.

(** [trim] removes white space at both ends only, and its result is a
    fixed point of [trimStart], [trimEnd] and [trim]. *)
Lemma trim_spec (s : string) :
  (exists l r, s = l ++ trim s ++ r
               /\ all_white_space l = true /\ all_white_space r = true)
  /\ trimStart (trim s) = trim s
  /\ trimEnd (trim s) = trim s
  /\ trim (trim s) = trim s.
Proof.
  destruct (trim_list s) as (p & q & Hs & Hp & Hq & Hhead & Hlast).
  assert (Hstart : trimStart (trim s) = trim s).
  { apply list_ascii_inj. rewrite trimStart_list. apply drop_ws_fixed, Hhead. }
  assert (Hend : trimEnd (trim s) = trim s).
  { apply list_ascii_inj. rewrite trimEnd_list.
    rewrite (drop_ws_fixed _ Hlast). apply List.rev_involutive. }
  split; [|split; [exact Hstart | split; [exact Hend|]]].
  - exists (string_of_list_ascii p), (string_of_list_ascii q).
    unfold all_white_space. rewrite !list_ascii_of_string_of_list_ascii.
    split; [|auto]. apply list_ascii_inj.
    rewrite !list_ascii_app, !list_ascii_of_string_of_list_ascii. exact Hs.
  - unfold trim at 1. rewrite Hstart. exact Hend.
Qed.

Lemma trim_empty_iff (s : string) : trim s = "" <-> all_white_space s = true.
Proof.
  destruct (trim_list s) as (p & q & Hs & Hp & Hq & Hhead & _).
  unfold all_white_space. rewrite Hs. split.
  - intros ->. simpl. rewrite forallb_app, Hp, Hq. reflexivity.
  - rewrite !forallb_app. intros H.
    apply andb_true_iff in H as [_ H]. apply andb_true_iff in H as [H _].
    apply list_ascii_inj. simpl.
    destruct (list_ascii_of_string (trim s)) as [|c r]; [reflexivity|].
    simpl in H. rewrite Hhead in H. discriminate.
Qed.


(** ** The chat interface, continued *)
Section ChatTurns.
Import ChatInterface.

Ltac run_handler' :=
  unfold state_after, effects_of, conversation, turn, handleNewChat, handleSessionClick,
    handleSend, handleSend_before, handleSend_after, handleDeleteSession,
    mbind, handler_bind, mret, handler_ret, emit, read,
    setInput, setMessages, setLoading, setSessionId, setChatSessions, loadChatSessions;
  cbv beta iota zeta.

Lemma handleSend_runs (workflow_id : string) (reply : query_reply) (st : chat) :
  truthy (JStr (trim (input st))) = true -> loading st = false ->
  handleSend workflow_id reply st
  = (tt,
     {| messages :=
          match reply with
          | QueryOk _ response =>
              (messages st ++ [{| role := "user"; content := trim (input st) |};
                               {| role := "assistant"; content := response |}])%list
          | QueryFails _ => messages st
          end;
        input := "";
        loading := false;
        sessionId := match reply with QueryOk sid _ => sid | QueryFails _ => sessionId st end;
        chatSessions := chatSessions st;
        sidebarOpen := sidebarOpen st |},
     (PreventDefault :: PostQuery (trim (input st)) workflow_id (sessionId st)
      :: match reply with
         | QueryOk _ _ => [GetSessions workflow_id]
         | QueryFails detail => [ToastError (str_or detail "Error processing query")]
         end)%list).
Proof.
  intros Ht Hl. run_handler'. rewrite Ht, Hl. simpl.
  destruct reply as [sid response | detail]; simpl.
  - rewrite <- app_assoc. reflexivity.
  - unfold slice_0_minus1. rewrite removelast_last. reflexivity.
Qed.

(** X13: a turn whose guard passes ends with the loading flag off and
    the input empty, leaves the sessions list and the sidebar alone,
    keeps the session id when the request fails, and performs exactly:
    preventDefault, one query request carrying the trimmed input, the
    workflow id and the session id held before, and then either the
    refresh of the sessions list (success) or one error toast with the
    server's detail or the default text (failure). *)
Theorem handleSend_bookkeeping (workflow_id : string) (reply : query_reply) (st : chat)
    (Hinput : trim (input st) <> "")
    (Hidle : loading st = false) :
  let st' := state_after (handleSend workflow_id reply) st in
  loading st' = false
  /\ input st' = ""
  /\ chatSessions st' = chatSessions st
  /\ sidebarOpen st' = sidebarOpen st
  /\ (forall detail, reply = QueryFails detail -> sessionId st' = sessionId st)
  /\ effects_of (handleSend workflow_id reply) st
     = (PreventDefault :: PostQuery (trim (input st)) workflow_id (sessionId st)
        :: match reply with
           | QueryOk _ _ => [GetSessions workflow_id]
           | QueryFails detail => [ToastError (str_or detail "Error processing query")]
           end)%list.
Proof.
  apply truthy_str_nonempty in Hinput.
  unfold state_after, effects_of. rewrite (handleSend_runs _ reply _ Hinput Hidle). simpl.
  repeat split. intros detail ->. reflexivity.
Qed.

Lemma handleSend_bookkeeping_witness :
  let st' := state_after (handleSend "wf1" (QueryFails (Some "boom"))) fresh_chat in
  loading st' = false
  /\ input st' = ""
  /\ chatSessions st' = chatSessions fresh_chat
  /\ sidebarOpen st' = sidebarOpen fresh_chat
  /\ (forall detail, QueryFails (Some "boom") = QueryFails detail ->
        sessionId st' = sessionId fresh_chat)
  /\ effects_of (handleSend "wf1" (QueryFails (Some "boom"))) fresh_chat
     = (PreventDefault :: PostQuery (trim (input fresh_chat)) "wf1" (sessionId fresh_chat)
        :: [ToastError (str_or (Some "boom") "Error processing query")])%list.
Proof.
  apply (handleSend_bookkeeping "wf1" (QueryFails (Some "boom")) fresh_chat);
    [vm_compute; discriminate | reflexivity].
Defined.

(** X14: the send button is disabled exactly when submitting would send
    no request; then submitting leaves the state as it is, and
    otherwise the query request is sent. *)
Theorem send_disabled_iff_inert (workflow_id : string) (reply : query_reply) (st : chat) :
  (send_disabled st = true <->
   List.filter is_request (effects_of (handleSend workflow_id reply) st) = [])
  /\ (send_disabled st = true -> state_after (handleSend workflow_id reply) st = st)
  /\ (send_disabled st = false ->
      exists rest, effects_of (handleSend workflow_id reply) st
                   = (PreventDefault
                      :: PostQuery (trim (input st)) workflow_id (sessionId st) :: rest)%list).
Proof.
  unfold send_disabled. rewrite orb_comm.
  destruct (negb (truthy (JStr (trim (input st)))) || loading st)%bool eqn:G.
  - unfold effects_of, state_after. rewrite (handleSend_guarded workflow_id reply st G).
    simpl. repeat split; auto; discriminate.
  - apply orb_false_iff in G as [Ht Hl]. apply negb_false_iff in Ht.
    unfold effects_of, state_after. rewrite (handleSend_runs _ reply _ Ht Hl). simpl.
    split; [split; intros H; discriminate|]. split; [discriminate|]. eauto.
Qed.

Lemma same_dependency_refl sid : same_dependency sid sid = true.
Proof. destruct sid as [x|]; simpl; [apply String.eqb_refl | reflexivity]. Qed.

Lemma rendered_turn workflow_id text reply history st :
  loading st = false -> stays_in_session (sessionId st) (text, reply, history) ->
  let st' := state_after (rendered (turn workflow_id text reply) history) st in
  messages st' = (messages st ++ turn_entries (text, reply, history))%list
  /\ loading st' = false
  /\ sessionId st' = sessionId st
  /\ List.filter is_history_request
       (effects_of (rendered (turn workflow_id text reply) history) st) = [].
Proof.
  intros Hl Hs. unfold turn_entries, stays_in_session in *. simpl fst in *. simpl snd in *.
  cbv zeta.
  unfold rendered, turn, state_after, effects_of, mbind, handler_bind, read, setInput.
  cbv beta iota zeta.
  set (st1 := {| messages := messages st; input := text; loading := loading st;
                 sessionId := sessionId st; chatSessions := chatSessions st;
                 sidebarOpen := sidebarOpen st |}).
  destruct (String.eqb_spec (trim text) "") as [E|E].
  - assert (G : (negb (truthy (JStr (trim (input st1)))) || loading st1)%bool = true)
      by (simpl; rewrite E; reflexivity).
    rewrite (handleSend_guarded workflow_id reply st1 G).
    unfold sessionId_effect, mbind, handler_bind, read. cbv beta iota zeta.
    change (sessionId st1) with (sessionId st). rewrite same_dependency_refl. simpl.
    rewrite app_nil_r. auto.
  - assert (Ht : truthy (JStr (trim (input st1))) = true)
      by (apply truthy_str_nonempty; exact E).
    rewrite (handleSend_runs workflow_id reply st1 Ht Hl).
    unfold sessionId_effect, mbind, handler_bind, read. cbv beta iota zeta.
    destruct reply as [sid response | detail]; cbn [sessionId].
    + subst sid. rewrite same_dependency_refl. simpl. auto.
    + change (sessionId st1) with (sessionId st). rewrite same_dependency_refl. simpl.
      rewrite app_nil_r. auto.
Qed.

Lemma state_after_bind {A B} (m : handler A) (k : handler B) st :
  state_after (m ;; k) st = state_after k (state_after m st).
Proof.
  unfold state_after, mbind, handler_bind.
  destruct (m st) as [[a st1] out1]. simpl.
  destruct (k st1) as [[b st2] out2]. reflexivity.
Qed.

Lemma effects_of_bind {A B} (m : handler A) (k : handler B) st :
  effects_of (m ;; k) st = (effects_of m st ++ effects_of k (state_after m st))%list.
Proof.
  unfold effects_of, state_after, mbind, handler_bind.
  destruct (m st) as [[a st1] out1]. simpl.
  destruct (k st1) as [[b st2] out2]. reflexivity.
Qed.

Lemma flat_map_turn_entries_length (turns : list chat_turn) :
  length (flat_map turn_entries turns) = (2 * length (List.filter answered turns))%nat.
Proof.
  induction turns as [|[[text reply] history] turns IH]; [reflexivity|].
  simpl flat_map. rewrite length_app, IH. simpl List.filter.
  unfold turn_entries, answered. simpl fst. simpl snd.
  destruct (String.eqb (trim text) ""); simpl; [lia|].
  destruct reply; simpl; lia.
Qed.

(** X15: take turns made one after the other, each settled before the
    next starts, in a chat with nothing in flight, whose answers all
    name the session that is current at the start.  Then the session
    stays current and no history is requested, and the message list
    grows by the user and assistant entries of the answered turns, in
    order, and by nothing for blank or failed turns: its length grows
    by twice the number of answered turns, and the loading flag is off
    at the end. *)
Theorem conversation_history (workflow_id : string) (turns : list chat_turn)
    (st : chat) (Hidle : loading st = false)
    (Hsession : Forall (stays_in_session (sessionId st)) turns) :
  let st' := state_after (conversation workflow_id turns) st in
  messages st' = (messages st ++ flat_map turn_entries turns)%list
  /\ loading st' = false
  /\ sessionId st' = sessionId st
  /\ length (messages st')
     = (length (messages st) + 2 * length (List.filter answered turns))%nat
  /\ List.filter is_history_request (effects_of (conversation workflow_id turns) st) = [].
Proof.
  simpl.
  assert (H : messages (state_after (conversation workflow_id turns) st)
              = (messages st ++ flat_map turn_entries turns)%list
              /\ loading (state_after (conversation workflow_id turns) st) = false
              /\ sessionId (state_after (conversation workflow_id turns) st) = sessionId st
              /\ List.filter is_history_request
                   (effects_of (conversation workflow_id turns) st) = []).
  { revert st Hidle Hsession.
    induction turns as [|[[text reply] history] turns IH]; intros st Hidle Hsession.
    - simpl. unfold state_after, effects_of. simpl. rewrite app_nil_r. auto.
    - change (conversation workflow_id ((text, reply, history) :: turns))
        with (rendered (turn workflow_id text reply) history ;;
              conversation workflow_id turns).
      rewrite state_after_bind, effects_of_bind.
      apply Forall_cons in Hsession as [Hhead Htail].
      destruct (rendered_turn workflow_id text reply history st Hidle Hhead)
        as (Hm & Hl & Hs & He).
      rewrite <- Hs in Htail.
      destruct (IH _ Hl Htail) as (IH1 & IH2 & IH3 & IH4).
      rewrite IH1, IH2, IH3, Hm, Hs, List.filter_app, He, IH4.
      simpl flat_map. rewrite <- app_assoc. auto. }
  destruct H as (Hm & Hl & Hs & He).
  rewrite Hm, length_app, flat_map_turn_entries_length. auto.
Qed.

Lemma conversation_history_witness :
  let turns := [("  And DL? ", QueryOk (Some "a") "A kind of ML.", HistoryFails);
                ("   ", QueryOk (Some "a") "unused", HistoryFails);
                ("And RL?", QueryFails None, HistoryFails);
                ("And RL?", QueryOk (Some "a") "Another kind.", HistoryFails)] in
  let st' := state_after (conversation "wf1" turns) active_chat in
  messages st' = (messages active_chat ++ flat_map turn_entries turns)%list
  /\ loading st' = false
  /\ sessionId st' = sessionId active_chat
  /\ length (messages st')
     = (length (messages active_chat) + 2 * length (List.filter answered turns))%nat
  /\ List.filter is_history_request (effects_of (conversation "wf1" turns) active_chat) = [].
Proof.
  apply (conversation_history "wf1" _ active_chat); [reflexivity|].
  repeat constructor.
Defined.

(** The first answer of a new chat names a new session: the effect
    hook then loads that session's history, which replaces the message
    list. *)
Example first_turn_loads_history :
  let stored_history :=
    [{| role := "user"; content := "What is ML?" |};
     {| role := "assistant"; content := "A field of AI." |}] in
  let first := [("  What is ML? ", QueryOk (Some "s1") "A field of AI.",
                 HistoryOk stored_history)] in
  messages (state_after (conversation "wf1" first) fresh_chat) = stored_history
  /\ effects_of (conversation "wf1" first) fresh_chat
     = [PreventDefault; PostQuery "What is ML?" "wf1" None; GetSessions "wf1";
        GetHistory "s1"].
Proof. split; reflexivity. Qed.

(** X16: a failed deletion leaves the chat state as it was and shows
    the error toast; a successful one keeps exactly the sessions with
    another id; neither touches the input, the loading flag or the
    sidebar; deleting a session that is not listed leaves the list as
    it is. *)
Theorem handleDeleteSession_frame (s : session) (reply : delete_reply) (st : chat) :
  let st' := state_after (handleDeleteSession s reply) st in
  (reply = DeleteFails ->
     st' = st
     /\ effects_of (handleDeleteSession s reply) st
        = [StopPropagation; DeleteSession (session_id s);
           ToastError "Error deleting chat session"])
  /\ (reply = DeleteOk ->
      forall s', s' ∈ chatSessions st' <->
                 s' ∈ chatSessions st /\ session_id s' <> session_id s)
  /\ input st' = input st
  /\ loading st' = loading st
  /\ sidebarOpen st' = sidebarOpen st
  /\ ((forall s', s' ∈ chatSessions st -> session_id s' <> session_id s) ->
      chatSessions st' = chatSessions st).
Proof.
  simpl. run_handler'.
  assert (Hf : forall l : list session,
    (forall s', s' ∈ l -> session_id s' <> session_id s) ->
    List.filter (fun s' => negb (String.eqb (session_id s') (session_id s))) l = l).
  { induction l as [|a l IH]; intros H; simpl; [reflexivity|].
    destruct (String.eqb_spec (session_id a) (session_id s)) as [E|E]; simpl.
    - exfalso. apply (H a); [apply elem_of_cons; auto | exact E].
    - rewrite IH; [reflexivity|]. intros s' Hs'. apply H. apply elem_of_cons. auto. }
  destruct reply; simpl.
  - destruct (sessionId st) as [cur|]; [destruct (String.eqb cur (session_id s))|]; simpl;
      (split; [discriminate|]); (split; [|auto]); intros _ s';
      rewrite list_elem_of_In, filter_In, <- list_elem_of_In, negb_true_iff,
        String.eqb_neq; reflexivity.
  - split; [intros _; split; [destruct st|]; reflexivity|].
    split; [discriminate|]. repeat split.
Qed.

End ChatTurns.

Section WhiteSpace.
Import ChatInterface.

(** X17: an input of white space only sends nothing and changes
    nothing; a query that is sent is the input without its surrounding
    white space: it is not empty and neither starts nor ends with white
    space; a workflow name of white space only is refused with the
    request to enter a name. *)
Theorem surrounding_white_space_is_dropped (workflow_id : string) (reply : query_reply)
    (st : chat) (b : builder) (editingWorkflow : option workflow) (r : save_reply) :
  (all_white_space (input st) = true ->
     handleSend workflow_id reply st = (tt, st, [PreventDefault]))
  /\ (forall q w sid, PostQuery q w sid ∈ effects_of (handleSend workflow_id reply) st ->
        q <> "" /\ trimStart q = q /\ trimEnd q = q
        /\ exists l r, input st = l ++ q ++ r
                       /\ all_white_space l = true /\ all_white_space r = true)
  /\ (all_white_space (workflowName b) = true ->
      handleSaveWorkflow editingWorkflow b r = [WorkflowBuilder.ToastError "Please enter a workflow name"]).
Proof.
  split; [|split].
  - intros H. apply trim_empty_iff in H. apply handleSend_guarded.
    rewrite H. reflexivity.
  - intros q w sid Hin.
    destruct (negb (truthy (JStr (trim (input st)))) || loading st)%bool eqn:G.
    + unfold effects_of in Hin. rewrite (handleSend_guarded _ reply st G) in Hin.
      simpl in Hin. apply list_elem_of_singleton in Hin. discriminate.
    + apply orb_false_iff in G as [Ht Hl]. apply negb_false_iff in Ht.
      unfold effects_of in Hin. rewrite (handleSend_runs _ reply st Ht Hl) in Hin.
      simpl in Hin.
      assert (Hq : q = trim (input st)).
      { destruct reply; repeat (apply elem_of_cons in Hin as [Hin|Hin];
          [try discriminate; try (injection Hin; congruence)|]); inversion Hin. }
      subst q. destruct (trim_spec (input st)) as (Hsplit & Hs & He & _).
      split; [apply truthy_str_nonempty, Ht|]. auto.
  - intros H. apply trim_empty_iff in H. unfold handleSaveWorkflow, validate.
    rewrite H. reflexivity.
Qed.
End WhiteSpace.


(** ** App *)

Lemma App_run_snoc events e st :
  App.run (events ++ [e]) st = App.handle e (App.run events st).
Proof. unfold App.run. rewrite fold_left_app. reflexivity. Qed.

(** X18: whatever callbacks the children call and in whatever order,
    the view is one of home, builder and chat, exactly one screen is
    rendered, the chat screen is only ever rendered with an active
    workflow, and the home view holds no workflow under edit. *)
Theorem App_views (events : list App.event) :
  let st := App.run events App.initial in
  (App.currentView st = "home" \/ App.currentView st = "builder"
   \/ App.currentView st = "chat")
  /\ length (App.render st) = 1%nat
  /\ (App.currentView st = "chat" ->
      exists w, App.activeWorkflow st = Some w
                /\ App.render st = [App.ChatInterfaceScreen (Some w)])
  /\ (App.currentView st = "home" -> App.editingWorkflow st = None).
Proof.
  simpl. induction events as [|e events IH] using rev_ind.
  - simpl. repeat split; auto. discriminate. 
  - rewrite App_run_snoc. set (st := App.run events App.initial) in *.
    destruct IH as (Hv & _ & Hchat & _).
    destruct e; simpl; (split; [auto|]); (split; [reflexivity|]);
      (split; [|try discriminate; auto]); try discriminate.
    + intros _. eexists. split; reflexivity.
Qed.

(** ** HomePage *)

(** X19: opening a stack for editing calls the parent exactly once:
    with the workflow the server returned when the request succeeds,
    and with the list entry itself when it fails; the busy flag is off
    afterwards and the list is untouched. *)
Theorem HomePage_handleEditStack_opens_once (w : workflow) (reply : HomePage.detail_reply)
    (st : HomePage.home) :
  let st' := fst (HomePage.handleEditStack w reply st) in
  let out := snd (HomePage.handleEditStack w reply st) in
  HomePage.editingLoading st' = false
  /\ HomePage.workflows st' = HomePage.workflows st
  /\ HomePage.loading st' = HomePage.loading st
  /\ List.filter (fun e => match e with HomePage.OnEditStack _ => true | _ => false end) out
     = [HomePage.OnEditStack
          match reply with
          | HomePage.DetailOk data => data
          | HomePage.DetailFails => w
          end].
Proof. destruct reply; simpl; repeat split. Qed.

(** X20: a successful deletion keeps exactly the workflows with another
    id and a failed one leaves the page state as it was; after the list
    has been fetched, successfully or not, the page is no longer
    loading; a failed fetch keeps the list; and the page always shows
    exactly one of the loading, empty and grid blocks. *)
Theorem HomePage_list_handlers (id : string) (st : HomePage.home) :
  (forall wf,
     (wf ∈ HomePage.workflows (fst (HomePage.handleDeleteWorkflow id HomePage.DeleteOk st)))
     <-> (wf ∈ HomePage.workflows st /\ wf_id wf <> id))
  /\ fst (HomePage.handleDeleteWorkflow id HomePage.DeleteFails st) = st
  /\ (forall reply,
        HomePage.loading (fst (HomePage.fetchWorkflows reply st)) = false
        /\ (HomePage.LoadingState ∉ HomePage.render (fst (HomePage.fetchWorkflows reply st)))
        /\ length (HomePage.render (fst (HomePage.fetchWorkflows reply st))) = 1%nat)
  /\ HomePage.workflows (fst (HomePage.fetchWorkflows HomePage.ListFails st))
     = HomePage.workflows st
  /\ length (HomePage.render st) = 1%nat.
Proof.
  assert (Hr : forall s, length (HomePage.render s) = 1%nat).
  { intros s. unfold HomePage.render.
    destruct (HomePage.loading s); simpl; [reflexivity|].
    destruct (HomePage.workflows s); reflexivity. }
  split; [|split; [reflexivity|split; [|split; [reflexivity|apply Hr]]]].
  - intros wf. simpl.
    rewrite list_elem_of_In, filter_In, <- list_elem_of_In, negb_true_iff, String.eqb_neq.
    reflexivity.
  - intros reply. split; [destruct reply; reflexivity|]. split; [|apply Hr].
    unfold HomePage.render.
    replace (HomePage.loading (HomePage.fetchWorkflows reply st).1) with false
      by (destruct reply; reflexivity).
    simpl. destruct (HomePage.workflows _); simpl; intros H;
      repeat (apply elem_of_cons in H as [H|H]; [discriminate|]); inversion H.
Qed.

(** ** The upload section of the Knowledge Base node *)
Section Upload.
Import KnowledgeBaseNode.

Lemma append_String (c : ascii) (s t : string) : String c s ++ t = String c (s ++ t).
Proof. reflexivity. Qed.

Lemma prefix_spec (s1 s2 : string) :
  String.prefix s1 s2 = true <-> exists t, s2 = s1 ++ t.
Proof.
  revert s2. induction s1 as [|c s1 IH]; intros s2.
  - split; [intros _; exists s2; reflexivity | intros _; destruct s2; reflexivity].
  - destruct s2 as [|c2 s2]; simpl;
      [split; [discriminate | intros [t H]; rewrite append_String in H; discriminate]|].
    destruct (ascii_dec c c2) as [->|Hne].
    + rewrite IH. split; intros [t H]; exists t; rewrite append_String in *; congruence.
    + split; [discriminate | intros [t H]; rewrite append_String in H; congruence].
Qed.

Lemma string_rev_involutive (s : string) : String.rev (String.rev s) = s.
Proof. apply list_ascii_inj. rewrite !rev_list. apply List.rev_involutive. Qed.

Lemma string_rev_app (s t : string) :
  String.rev (s ++ t) = String.rev t ++ String.rev s.
Proof.
  apply list_ascii_inj.
  rewrite rev_list, !list_ascii_app, !rev_list. apply List.rev_app_distr.
Qed.

Lemma endsWith_spec (name suffix : string) :
  endsWith name suffix = true <-> exists base, name = base ++ suffix.
Proof.
  unfold endsWith. rewrite prefix_spec. split.
  - intros [t H]. exists (String.rev t).
    rewrite <- (string_rev_involutive name), H, string_rev_app, string_rev_involutive.
    reflexivity.
  - intros [base ->]. exists (String.rev base). apply string_rev_app.
Qed.

(** X21: an upload request is made exactly when a file is chosen, its
    name ends in .pdf and the node has a Knowledge Base id; then there
    is exactly one, for that id, the node's embedding model (gemini
    when unset) and that file; the uploading flag is off afterwards and
    the file input is reset last.  Otherwise the state is unchanged,
    the node is not updated, and the only effect is the matching error
    toast (none when no file was chosen). *)
Theorem handleFileSelect_guards (data : obj) (file : option string) (now : string)
    (reply : upload_reply) (st : kb) :
  let accepted :=
    (exists base, file = Some (base ++ ".pdf"))
    /\ truthy (get (Some data) "knowledgeBaseId") = true in
  let out := snd (handleFileSelect data file now reply st) in
  let st' := fst (handleFileSelect data file now reply st) in
  (accepted ->
     exists name, file = Some name
       /\ List.filter is_upload out
          = [Upload (get (Some data) "knowledgeBaseId") (defaultEmbeddingModel data) name]
       /\ uploading st' = false
       /\ last out = Some ResetFileInput)
  /\ (~ accepted ->
      st' = st /\ List.filter is_upload out = [] /\ List.filter is_onUpdate out = []
      /\ (file = None -> out = [])
      /\ (forall name, file = Some name -> (forall base, name <> base ++ ".pdf") ->
            out = [ToastError "Only PDF files are supported"])
      /\ (forall name, file = Some name -> (exists base, name = base ++ ".pdf") ->
            out = [ToastError "Please enter a Knowledge Base ID first"])).
Proof.
  cbv zeta. unfold handleFileSelect.
  generalize (defaultEmbeddingModel data). intros model.
  generalize (get (Some data) "knowledgeBaseId"). intros k.
  destruct file as [name|].
  2:{ split; [intros [[b H] _]; discriminate|]. intros _. repeat split; discriminate. }
  destruct (endsWith name ".pdf") eqn:E; simpl.
  - assert (Hb : exists base, name = base ++ ".pdf") by (apply endsWith_spec, E).
    destruct (truthy k) eqn:T; simpl.
    + split.
      * intros _. exists name. split; [reflexivity|].
        destruct reply; simpl; repeat split.
      * intros H. exfalso. apply H. split; [|reflexivity].
        destruct Hb as [b ->]. eauto.
    + split; [intros [_ H]; discriminate|]. intros _.
      repeat split; try discriminate.
      intros name' [= <-] Hno. destruct Hb as [b Hb]. exfalso. apply (Hno b Hb).
  - assert (Hb : forall base, name <> base ++ ".pdf").
    { intros base H. assert (endsWith name ".pdf" = true) by (apply endsWith_spec; eauto).
      congruence. }
    split.
    + intros [[b [= H]] _]. exfalso. apply (Hb b H).
    + intros _. repeat split; try discriminate.
      intros name' [= <-] [b H]. exfalso. apply (Hb b H).
Qed.

(** X22: when the upload is made, the uploading flag ends off whatever
    happens; on acceptance the list of uploaded files grows by exactly
    one entry (file name, returned id, upload time) and the node is
    updated once with the whole new list; on refusal or a thrown error
    the list is unchanged, the node is not updated and the error toast
    is shown. *)
Theorem handleFileSelect_outcomes (data : obj) (base now : string)
    (reply : upload_reply) (st : kb)
    (Hkb : truthy (get (Some data) "knowledgeBaseId") = true) :
  let name := base ++ ".pdf" in
  let out := snd (handleFileSelect data (Some name) now reply st) in
  let st' := fst (handleFileSelect data (Some name) now reply st) in
  uploading st' = false
  /\ match reply with
     | UploadOk id =>
         uploadedFiles st'
         = (uploadedFiles st ++ [{| up_name := name; up_id := id; up_uploadedAt := now |}])%list
         /\ List.filter is_onUpdate out
            = [OnUpdate {[ "uploadedFiles" := JArr (List.map uploaded_value (uploadedFiles st')) ]}]
     | UploadRefused detail =>
         uploadedFiles st' = uploadedFiles st
         /\ List.filter is_onUpdate out = []
         /\ ToastError (str_or detail "Failed to upload file") ∈ out
     | UploadThrows message =>
         uploadedFiles st' = uploadedFiles st
         /\ List.filter is_onUpdate out = []
         /\ ToastError ("Error uploading file: " ++ message) ∈ out
     end.
Proof.
  cbv zeta. unfold handleFileSelect.
  assert (E : endsWith (base ++ ".pdf") ".pdf" = true) by (apply endsWith_spec; eauto).
  rewrite E, Hkb. simpl.
  destruct reply; simpl; repeat split; rewrite !elem_of_cons; auto.
Qed.

Lemma handleFileSelect_outcomes_witness :
  let data : obj := {[ "knowledgeBaseId" := JStr "docs" ]} in
  let st := {| uploading := false; uploadedFiles := [] |} in
  let name := "guide" ++ ".pdf" in
  let out := snd (handleFileSelect data (Some name) "1/1/2024" (UploadOk (IdNum 7)) st) in
  let st' := fst (handleFileSelect data (Some name) "1/1/2024" (UploadOk (IdNum 7)) st) in
  uploading st' = false
  /\ (uploadedFiles st'
      = (uploadedFiles st
         ++ [{| up_name := name; up_id := IdNum 7; up_uploadedAt := "1/1/2024" |}])%list
      /\ List.filter is_onUpdate out
         = [OnUpdate {[ "uploadedFiles" := JArr (List.map uploaded_value (uploadedFiles st')) ]}]).
Proof.
  apply (handleFileSelect_outcomes {[ "knowledgeBaseId" := JStr "docs" ]} "guide" "1/1/2024"
           (UploadOk (IdNum 7)) {| uploading := false; uploadedFiles := [] |}).
  reflexivity.
Defined.

Lemma id_differs_spec (a b : file_id) : id_differs a b = false <-> a = b.
Proof.
  destruct a as [x|x], b as [y|y]; simpl; split; try discriminate; try congruence.
  - rewrite negb_false_iff, Z.eqb_eq. congruence.
  - intros [= ->]. rewrite Z.eqb_refl. reflexivity.
  - rewrite negb_false_iff, String.eqb_eq. congruence.
  - intros [= ->]. rewrite String.eqb_refl. reflexivity.
Qed.

(** X23: removing a file keeps exactly the entries with another id,
    leaves the uploading flag alone, updates the node once with the
    remaining list, changes nothing when no entry has that id, and
    changes nothing more when repeated. *)
Theorem handleRemoveFile_spec (fileId : file_id) (st : kb) :
  let st' := fst (handleRemoveFile fileId st) in
  (forall f, f ∈ uploadedFiles st' <-> f ∈ uploadedFiles st /\ up_id f <> fileId)
  /\ uploading st' = uploading st
  /\ List.filter is_onUpdate (snd (handleRemoveFile fileId st))
     = [OnUpdate {[ "uploadedFiles" := JArr (List.map uploaded_value (uploadedFiles st')) ]}]
  /\ ((forall f, f ∈ uploadedFiles st -> up_id f <> fileId) ->
      uploadedFiles st' = uploadedFiles st)
  /\ fst (handleRemoveFile fileId st') = st'.
Proof.
  simpl.
  assert (Hfix : forall l : list uploaded,
    (forall f, f ∈ l -> up_id f <> fileId) ->
    List.filter (fun f => id_differs (up_id f) fileId) l = l).
  { induction l as [|a l IH]; intros H; simpl; [reflexivity|].
    destruct (id_differs (up_id a) fileId) eqn:E.
    - rewrite IH; [reflexivity|]. intros f Hf. apply H, elem_of_cons. auto.
    - apply id_differs_spec in E. exfalso. apply (H a); [apply elem_of_cons; auto | exact E]. }
  assert (Hmem : forall f, f ∈ List.filter (fun f => id_differs (up_id f) fileId)
                                   (uploadedFiles st)
                           <-> f ∈ uploadedFiles st /\ up_id f <> fileId).
  { intros f. rewrite list_elem_of_In, filter_In, <- list_elem_of_In.
    rewrite <- id_differs_spec. destruct (id_differs (up_id f) fileId); intuition congruence. }
  split; [exact Hmem|]. split; [reflexivity|]. split; [reflexivity|].
  split; [apply Hfix|].
  unfold handleRemoveFile. simpl. f_equal. apply Hfix.
  intros f Hf. apply Hmem in Hf. tauto.
Qed.

(** X24: the upload section of a freshly created Knowledge Base node
    never sends an upload, whatever file is chosen, because its id is
    empty; once a non-empty id has been entered, choosing a .pdf file
    sends one upload for that id with the embedding model gemini. *)
Theorem fresh_KnowledgeBase_cannot_upload (id : string) (pos : position)
    (cb : option callback) (file : option string) (now : string) (reply : upload_reply)
    (st : kb) :
  let data := spread_opt (node_data (createNode id "knowledgeBase" pos cb)) in
  fst (handleFileSelect data file now reply st) = st
  /\ List.filter is_upload (snd (handleFileSelect data file now reply st)) = []
  /\ (forall base v, v <> "" ->
        List.filter is_upload
          (snd (handleFileSelect (spread data {[ "knowledgeBaseId" := JStr v ]})
                  (Some (base ++ ".pdf")) now reply st))
        = [Upload (JStr v) (JStr "gemini") (base ++ ".pdf")]).
Proof.
  cbv zeta.
  assert (Hk : get (Some (spread_opt (node_data (createNode id "knowledgeBase" pos cb))))
                 "knowledgeBaseId" = JStr "") by reflexivity.
  assert (Hrefused :
    forall data, get (Some data) "knowledgeBaseId" = JStr "" ->
      fst (handleFileSelect data file now reply st) = st
      /\ List.filter is_upload (snd (handleFileSelect data file now reply st)) = []).
  { intros data Hd. unfold handleFileSelect. rewrite Hd.
    destruct file as [name|]; [|split; reflexivity].
    destruct (endsWith name ".pdf"); split; reflexivity. }
  split; [apply (Hrefused _ Hk)|]. split; [apply (Hrefused _ Hk)|].
  intros base v Hv.
  assert (E : endsWith (base ++ ".pdf") ".pdf" = true) by (apply endsWith_spec; eauto).
  assert (Hk' : get (Some (spread (spread_opt (node_data (createNode id "knowledgeBase" pos cb)))
                            {[ "knowledgeBaseId" := JStr v ]})) "knowledgeBaseId" = JStr v).
  { unfold get, spread. erewrite lookup_union_Some_l by apply lookup_singleton_eq.
    reflexivity. }
  assert (Hm : defaultEmbeddingModel
                 (spread (spread_opt (node_data (createNode id "knowledgeBase" pos cb)))
                    {[ "knowledgeBaseId" := JStr v ]}) = JStr "gemini").
  { unfold defaultEmbeddingModel, get, spread.
    rewrite lookup_union_r by (apply lookup_singleton_ne; discriminate). reflexivity. }
  unfold handleFileSelect. rewrite E, Hk', Hm.
  apply String.eqb_neq in Hv. cbn [truthy negb]. rewrite Hv. cbn [negb].
  destruct reply; reflexivity.
Qed.

End Upload.

(** ** The node factory, continued *)
Example createNode_constructor :
  let n := createNode "n1" "constructor" origin None in
  node_type n = JFun (CbNative "constructor")
  /\ get (node_data n) "label" = JFun (CbNative "constructor")
  /\ get (node_data n) "type" = JStr "constructor".
Proof. repeat split; reflexivity. Qed.

(** X25: for every type string, known or not, the created node has the
    given id and position, carries the type as [data.type], holds the
    given callback or a no-op, counts as exactly the kind named by its
    type, and has Knowledge Base or LLM Engine settings only when it is
    of that kind.  Its [type] is the type string and its label the
    table's label or else the type string, unless the type names a
    property every object inherits ([constructor], [toString],
    [__proto__], ...): the two table lookups find that property, and
    the node gets it, a function or the prototype object, both as
    [type] and as label. *)
Theorem createNode_shape (id type : string) (pos : position) (cb : option callback) :
  let n := createNode id type pos cb in
  node_id n = id
  /\ node_position n = pos
  /\ match Object_prototype type with
     | None =>
         node_type n = JStr type
         /\ get (node_data n) "label" = JStr (default type (nodeLabels !! type))
     | Some inherited =>
         node_type n = inherited
         /\ get (node_data n) "label" = inherited
         /\ (inherited = JObj [] \/ inherited = JFun (CbNative type))
     end
  /\ get (node_data n) "type" = JStr type
  /\ get (node_data n) "onUpdate" = JFun (default CbNoop cb)
  /\ (forall kind, is_kind kind n = String.eqb type kind)
  /\ (type <> "knowledgeBase" ->
      get (node_data n) "topK" = JUndefined
      /\ get (node_data n) "knowledgeBaseId" = JUndefined
      /\ get (node_data n) "embeddingModel" = JUndefined)
  /\ (type <> "llmEngine" ->
      get (node_data n) "llmProvider" = JUndefined
      /\ get (node_data n) "model" = JUndefined
      /\ get (node_data n) "useWebSearch" = JUndefined).
Proof.
  cbv zeta.
  pose proof (createNode_type id type pos cb) as Ht.
  pose proof (createNode_data_type id type pos cb) as Hd.
  pose proof (nodeLabels_or_type type) as Hl.
  assert (Hlabel : get (node_data (createNode id type pos cb)) "label"
                   = default (JStr (default type (nodeLabels !! type)))
                       (Object_prototype type)).
  { rewrite <- Hl. unfold createNode.
    generalize (js_or (table_get nodeLabels type) (JStr type)). intros lbl. simpl.
    destruct (String.eqb type "knowledgeBase"); [|destruct (String.eqb type "llmEngine")];
      reflexivity. }
  split; [reflexivity|]. split; [reflexivity|].
  split; [|split; [exact Hd|split; [|split; [|split]]]].
  - rewrite Ht, Hlabel. destruct (Object_prototype type) as [v|] eqn:Ev; simpl.
    + apply Object_prototype_value in Ev as (_ & _ & Hv). auto.
    + auto.
  - unfold createNode.
    generalize (js_or (table_get nodeLabels type) (JStr type)). intros lbl. simpl.
    destruct (String.eqb type "knowledgeBase"); [|destruct (String.eqb type "llmEngine")];
      reflexivity.
  - intros kind. apply (is_kind_created kind type _ Ht Hd).
  - intros Hne. apply String.eqb_neq in Hne. unfold createNode.
    generalize (js_or (table_get nodeLabels type) (JStr type)). intros lbl.
    rewrite Hne. simpl.
    destruct (String.eqb type "llmEngine"); repeat split.
  - intros Hne. apply String.eqb_neq in Hne. unfold createNode.
    generalize (js_or (table_get nodeLabels type) (JStr type)). intros lbl.
    rewrite Hne. simpl.
    destruct (String.eqb type "knowledgeBase"); repeat split.
Qed.
